(** * Industrial inspection: synthetic detector and severity reasoner

    A shallow embedding of [inspection/vision.py] (class [Detector]) and
    [inspection/reasoning.py] (class [Reasoner]), followed by the properties
    the design document states about them and by further properties read
    off the code.

    Modelling conventions.
    - Python [int] is [Z]; sequences are [list]; [dict]s keyed by strings are
      stdpp [gmap string _]; a dict of fixed shape is a [Record].
    - Python [float] is modelled by rationals [Q].  A float that comes from
      a decimal (a literal such as [0.7], the result of [round(x, 2)]) is
      represented by that decimal, and comparisons between such values are
      exact.  A float computed by dividing integers, or by the product in
      [random.choices], is the quotient or product rounded to binary64
      ([Py.b64], round to nearest, ties to even); it is compared with a
      literal through the literal's own binary64 value ([Py.float]).  The
      draws of [uniform] are kept exact.  Quotients beyond the binary64
      range, where Python raises [OverflowError], are outside the model.
    - Python [str] is [string] (a sequence of UTF-8 bytes); an f-string is a
      concatenation.
    - An exception is the left injection of [Result]; code that draws from a
      [random.Random] instance threads the generator state explicitly. *)

From Stdlib Require Import ZArith QArith Qround Qpower String Ascii List Lia Lqa.
From stdpp Require Import base option list gmap strings.

Local Open Scope Z_scope.

(* ===================================================================== *)
(** * Python built-ins used by the two modules *)
(* ===================================================================== *)

Module Py.

(** Exceptions that the modelled code can raise. *)
Inductive Error : Type :=
| NotImplementedError (msg : string)
| IndexError
| ValueError.

Definition Result (A : Type) : Type := Error + A.

(** [a > b] and [a < b] on numbers. *)
Definition gtb (a b : Q) : bool := negb (Qle_bool a b).
Definition ltb (a b : Q) : bool := negb (Qle_bool b a).

(** [int(x)] on a float: truncation toward zero. *)
Definition int (x : Q) : Z := Z.quot (Qnum x) (Zpos (Qden x)).

(** Round half to even, to the nearest integer. *)
Definition round_half_even (x : Q) : Z :=
  let f := Qfloor x in
  let r := (x - inject_Z f)%Q in
  match (r ?= 1 # 2)%Q with
  | Lt => f
  | Gt => f + 1
  | Eq => if Z.even f then f else f + 1
  end.

(** [round(x, 2)]. *)
Definition round2 (x : Q) : Q :=
  (inject_Z (round_half_even (x * 100)) / 100)%Q.

(** [floor(log2(x))] for a positive [x]. *)
Definition ilog2 (x : Q) : Z :=
  if Qle_bool 1 x then Z.log2 (Qfloor x) else - Z.log2_up (Qceiling (/ x)).

(** The binary64 number nearest to a positive [x], ties to even: 53
    significant bits, the exponent no lower than that of the subnormal
    numbers. *)
Definition round_pos (x : Q) : Q :=
  let u := Z.max (ilog2 x) (-1022) - 52 in
  (inject_Z (round_half_even (x / 2 ^ u)) * 2 ^ u)%Q.

(** Rounding to binary64. *)
Definition b64 (x : Q) : Q :=
  match (x ?= 0)%Q with
  | Eq => 0%Q
  | Gt => round_pos x
  | Lt => (- round_pos (- x))%Q
  end.

(** The value of a float literal. *)
Definition float (literal : Q) : Q := b64 literal.

(** [a / b] on integers: the correctly rounded quotient.  The divisor is
    never 0 where the code divides. *)
Definition truediv (a b : Z) : Q := b64 (inject_Z a / inject_Z b).

(** How an f-string renders the result of [dict.get(key)] on a table of
    strings: the string itself, or [None]. *)
Definition fmt (o : option string) : string :=
  match o with
  | Some s => s
  | None => "None"
  end.

End Py.

(* ===================================================================== *)
(** * The detection record shared by both modules *)
(* ===================================================================== *)

(** [{"label": str, "confidence": float, "bbox": [x, y, w, h]}].  The
    reasoner reads ["confidence"] with [dict.get], so the key may be
    absent; ["label"] and ["bbox"] are read by subscript. *)
Record Detection : Type := mkDetection {
  label : string;
  confidence : option Q;
  bbox : Z * Z * Z * Z
}.

(** [detection.get("confidence", 0)]. *)
Definition get_confidence (d : Detection) : Q := default 0%Q (confidence d).

(* ===================================================================== *)
(** * inspection/reasoning.py *)
(* ===================================================================== *)

Module Reasoner.

Inductive Severity : Type := Low | Medium | High.

(** The string the code uses for each severity. *)
Definition severity_str (s : Severity) : string :=
  match s with
  | Low => "low"
  | Medium => "medium"
  | High => "high"
  end.

(** One value of [SOP_DB]. *)
Record SopEntry : Type := mkSopEntry {
  iso : string;
  sop : string;
  priority : string
}.

Definition SOP_DB : gmap string SopEntry :=
  {[ "crack" :=
       mkSopEntry "ISO 6508"
         "Inspect crack length; measure propagation; schedule NDT (ultrasonic)."
         "P2";
     "corrosion" :=
       mkSopEntry "ISO 9227"
         "Assess corrosion depth/area; clean and apply corrosion inhibitor; consider replacement."
         "P2";
     "leak" :=
       mkSopEntry "ISO 5167"
         "Isolate line; perform pressure test; immediate repair if active leak."
         "P1" ]}.

(** One element of the [sop_mappings] output. *)
Record SopMapping : Type := mkSopMapping {
  m_label : string;
  m_iso : string;
  m_sop : string;
  m_priority : string
}.

(** The dictionary returned by [analyze]. *)
Record Analysis : Type := mkAnalysis {
  summary : gmap string Z;
  severity : Severity;
  sop_mappings : list SopMapping;
  recommendations : list string
}.

(** [(w * h) / max(1, img_w * img_h)]. *)
Definition area_ratio (w h img_w img_h : Z) : Q :=
  Py.truediv (w * h) (Z.max 1 (img_w * img_h)).

(** [max(w, h) / max(1, max(img_w, img_h))]. *)
Definition length_ratio (w h img_w img_h : Z) : Q :=
  Py.truediv (Z.max w h) (Z.max 1 (Z.max img_w img_h)).

(** The two ratios are binary64 quotients and meet the binary64 values of
    the literals.  The confidence is compared as the number it stands for:
    no float lies between the float [0.7] and seven tenths, so for a float
    this is the comparison the code makes. *)
Definition _estimate_severity (detection : Detection) (image_size : Z * Z)
  : Severity :=
  let lbl := label detection in
  let '(x, y, w, h) := bbox detection in
  let '(img_w, img_h) := image_size in
  let area := area_ratio w h img_w img_h in
  if String.eqb lbl "leak" then
    if Py.gtb (get_confidence detection) 0.7 then High else Medium
  else if String.eqb lbl "crack" then
    let len := length_ratio w h img_w img_h in
    if Py.gtb len (Py.float 0.25) || Py.gtb area (Py.float 0.02) then High
    else if Py.gtb len (Py.float 0.08) then Medium
    else Low
  else if String.eqb lbl "corrosion" then
    if Py.gtb area (Py.float 0.06) then High
    else if Py.gtb area (Py.float 0.02) then Medium
    else Low
  else Low.

Definition shutdown_msg : string :=
  "Schedule shutdown and NDT / specialist inspection within 24 hours.".
Definition monitor_msg : string :=
  "Monitor weekly and re-inspect with higher-fidelity sensors.".
Definition caveat_msg : string :=
  "Confidence is moderate — capture higher-resolution image for verification.".

Definition _recommendations_for (lbl : string) (sev : Severity)
    (detection : Detection) : list string :=
  let base := SOP_DB !! lbl in
  let text := Py.fmt (sop <$> base) in
  let recs :=
    match sev with
    | High =>
        [lbl +:+ ": Immediate action — follow SOP: " +:+ text; shutdown_msg]
    | Medium =>
        [lbl +:+ ": Repair or patch and inspect; follow SOP: " +:+ text;
         monitor_msg]
    | Low =>
        [lbl +:+ ": Document and schedule maintenance per SOP: " +:+ text]
    end in
  if Py.ltb (get_confidence detection) 0.75 then recs ++ [caveat_msg]
  else recs.

(** [order = {"low": 0, "medium": 1, "high": 2}]. *)
Definition order (s : Severity) : Z :=
  match s with
  | Low => 0
  | Medium => 1
  | High => 2
  end.

(** One iteration of the loop in [_aggregate_severity]. *)
Definition aggregate_step (image_size : Z * Z) (worst : Severity)
    (d : Detection) : Severity :=
  let s := _estimate_severity d image_size in
  if order s >? order worst then s else worst.

Definition _aggregate_severity (detections : list Detection)
    (image_size : Z * Z) : Severity :=
  fold_left (aggregate_step image_size) detections Low.

(** The three accumulators of the loop in [analyze]. *)
Record Acc : Type := mkAcc {
  acc_counts : gmap string Z;
  acc_mappings : list SopMapping;
  acc_recs : list string
}.

(** One iteration of [for d in detections]. *)
Definition analyze_step (image_size : Z * Z) (a : Acc) (d : Detection) : Acc :=
  let lbl := label d in
  let counts := <[lbl := default 0 (acc_counts a !! lbl) + 1]> (acc_counts a) in
  let meta := SOP_DB !! lbl in
  let entry :=
    {| m_label := lbl;
       m_iso := default "N/A" (iso <$> meta);
       m_sop := default "Refer engineering SOP." (sop <$> meta);
       m_priority := default "P3" (priority <$> meta) |} in
  let sev := _estimate_severity d image_size in
  {| acc_counts := counts;
     acc_mappings := acc_mappings a ++ [entry];
     acc_recs := acc_recs a ++ _recommendations_for lbl sev d |}.

Definition analyze (detections : list Detection) (image_size : Z * Z)
  : Analysis :=
  let summary0 : gmap string Z :=
    {[ "total" := Z.of_nat (length detections) ]} in
  let a := fold_left (analyze_step image_size) detections (mkAcc ∅ [] []) in
  let overall := _aggregate_severity detections image_size in
  {| summary := acc_counts a ∪ summary0;   (* {**summary, **counts} *)
     severity := overall;
     sop_mappings := acc_mappings a;
     recommendations := acc_recs a |}.

End Reasoner.

(* ===================================================================== *)
(** * Library interfaces used by inspection/vision.py *)
(* ===================================================================== *)

Module PIL.

(** What the detector reads from a [PIL.Image.Image]: the raw pixel bytes
    ([tobytes()]) and [size]; the remaining attributes play no role in
    it. *)
Record Image : Type := mkImage {
  tobytes : list Byte.byte;
  size : N * N;
  mode : string;
  format : option string
}.

End PIL.

Module Hashlib.

Local Open Scope Z_scope.

(** Value of one hexadecimal digit, as [int(_, 16)] reads it. *)
Definition hex_digit (c : ascii) : option Z :=
  let n := Z.of_nat (nat_of_ascii c) in
  if (48 <=? n) && (n <=? 57) then Some (n - 48)
  else if (97 <=? n) && (n <=? 102) then Some (n - 87)
  else if (65 <=? n) && (n <=? 70) then Some (n - 55)
  else None.

Fixpoint hex_value (acc : Z) (s : string) : option Z :=
  match s with
  | EmptyString => Some acc
  | String c s' =>
      match hex_digit c with
      | Some d => hex_value (acc * 16 + d) s'
      | None => None
      end
  end.

(** [int(s, 16)] on a string of hexadecimal digits; anything else is a
    [ValueError] (signs, prefixes and separators, which a digest never
    contains, are left out). *)
Definition int16 (s : string) : Py.Result Z :=
  match s with
  | EmptyString => inl Py.ValueError
  | _ =>
      match hex_value 0 s with
      | Some z => inr z
      | None => inl Py.ValueError
      end
  end.

Fixpoint all_hex (s : string) : bool :=
  match s with
  | EmptyString => true
  | String c s' => bool_decide (is_Some (hex_digit c)) && all_hex s'
  end.

(** [hashlib.sha1(buf).hexdigest()]: forty hexadecimal digits. *)
Class Sha1 : Type := {
  hexdigest : list Byte.byte -> string;
  hexdigest_length : forall buf, String.length (hexdigest buf) = 40%nat;
  hexdigest_hex : forall buf, all_hex (hexdigest buf) = true
}.

End Hashlib.

Module Random.

Local Open Scope Z_scope.

(** An instance of [random.Random]: the state type [S], seeding, and the
    two primitives every other method is built from, with their documented
    ranges. *)
Class Generator (S : Type) : Type := {
  seeded : Z -> S;
  random : S -> Q * S;
  _randbelow : Z -> S -> Z * S;
  random_range : forall s, (0 <= fst (random s) /\ fst (random s) < 1)%Q;
  _randbelow_range : forall n s, 0 < n -> 0 <= fst (_randbelow n s) < n
}.

Section Methods.
Context {S : Type} `{Generator S}.

(** A computation that draws from the generator and may raise. *)
Definition Draw (A : Type) : Type := S -> Py.Result (A * S).

#[export] Instance Draw_ret : MRet Draw := fun A x s => inr (x, s).
#[export] Instance Draw_bind : MBind Draw := fun A B f m s =>
  match m s with
  | inl e => inl e
  | inr (x, s') => f x s'
  end.

Definition raise {A : Type} (e : Py.Error) : Draw A := fun _ => inl e.

(** [a + (b - a) * self.random()]. *)
Definition uniform (a b : Q) : Draw Q := fun s =>
  let (r, s') := random s in inr ((a + (b - a) * r)%Q, s').

(** [seq[self._randbelow(len(seq))]], an [IndexError] on an empty
    sequence; so is an index outside the range [_randbelow] documents. *)
Definition choice {A : Type} (seq : list A) : Draw A := fun s =>
  match seq with
  | [] => inl Py.IndexError
  | _ =>
      let (i, s') := _randbelow (Z.of_nat (length seq)) s in
      if i <? 0 then inl Py.IndexError
      else match seq !! Z.to_nat i with
           | Some x => inr (x, s')
           | None => inl Py.IndexError
           end
  end.

(** [itertools.accumulate(weights)]. *)
Fixpoint accumulate (acc : Z) (weights : list Z) : list Z :=
  match weights with
  | [] => []
  | x :: rest => (acc + x) :: accumulate (acc + x) rest
  end.

(** [bisect.bisect(a, x, lo, hi)] on a sorted list: the insertion point to
    the right of the entries not above [x], searched within [a[lo:hi]]. *)
Fixpoint count_le (a : list Z) (x : Q) : nat :=
  match a with
  | [] => 0%nat
  | c :: rest => if Qle_bool (inject_Z c) x then Datatypes.S (count_le rest x) else 0%nat
  end.

Definition bisect (a : list Z) (x : Q) (lo hi : nat) : nat :=
  (lo + count_le (take (hi - lo) (drop lo a)) x)%nat.

(** [self.choices(population, weights=weights)[0]].  The total of the
    weights is converted to a float, and [random() * total] is a product
    of floats. *)
Definition choices1 {A : Type} (population : list A) (weights : list Z)
  : Draw A := fun s =>
  let n := length population in
  let cum_weights := accumulate 0 weights in
  if negb (length cum_weights =? n)%nat then inl Py.ValueError
  else
    let total := last cum_weights in
    match total with
    | None => inl Py.IndexError
    | Some total =>
        if total <=? 0 then inl Py.ValueError
        else
          let total := Py.b64 (inject_Z total) in
          let (r, s') := random s in
          let hi := (n - 1)%nat in
          match population !! bisect cum_weights (Py.b64 (r * total)) 0 hi with
          | Some x => inr (x, s')
          | None => inl Py.IndexError
          end
    end.

End Methods.

Arguments Draw : clear implicits.

End Random.

(* ===================================================================== *)
(** * inspection/vision.py *)
(* ===================================================================== *)

Module Detector.

Import Random.
Local Open Scope Z_scope.

Definition SUPPORTED : list string := ["crack"; "corrosion"; "leak"].

(** The attributes set by [__init__]. *)
Record t : Type := mkDetector {
  model_path : option string;
  use_mock : bool;
  model : option unit
}.

Definition load_model (self : t) (path : option string) : Py.Result t :=
  inl (Py.NotImplementedError "Integrate a real model here (YOLO/OpenCV).").

(** [Detector(model_path, use_mock)]. *)
Definition __init__ (path : option string) (mock : bool) : Py.Result t :=
  let self := mkDetector path mock None in
  if negb mock then load_model self path else inr self.

Section Mock.
Context {S : Type} `{Generator S} `{Hashlib.Sha1}.

(** The body of [for i in range(n)], for an image of size [(w, h_img)]. *)
Definition draw_detection (w h_img : Z) : Draw S Detection :=
  lbl ← choice SUPPORTED;
  c ← uniform 0.6 0.98;
  let conf := Py.round2 c in
  '(bw, bh) ←
    (if String.eqb lbl "crack" then
       u ← uniform 0.08 0.4;
       v ← uniform 0.01 0.05;
       mret (Py.int (inject_Z w * u), Py.int (inject_Z h_img * v))
     else if String.eqb lbl "corrosion" then
       u ← uniform 0.05 0.25;
       v ← uniform 0.05 0.25;
       mret (Py.int (inject_Z w * u), Py.int (inject_Z h_img * v))
     else
       u ← uniform 0.05 0.18;
       v ← uniform 0.05 0.12;
       mret (Py.int (inject_Z w * u), Py.int (inject_Z h_img * v)));
  ux ← uniform 0 (inject_Z (Z.max 1 (w - bw)));
  uy ← uniform 0 (inject_Z (Z.max 1 (h_img - bh)));
  mret (mkDetection lbl (Some conf) (Py.int ux, Py.int uy, bw, bh)).

(** [for i in range(n): ... detections.append(...)]. *)
Fixpoint draw_loop (n : nat) (w h_img : Z) (detections : list Detection)
  : Draw S (list Detection) :=
  match n with
  | O => mret detections
  | Datatypes.S n' =>
      d ← draw_detection w h_img;
      draw_loop n' w h_img (detections ++ [d])
  end.

Definition _mock_detect (pil_image : PIL.Image)
  : Py.Result (list Detection) :=
  let buf := take 1024 (PIL.tobytes pil_image) in
  let h := Hashlib.hexdigest buf in
  match Hashlib.int16 (String.substring 0 8 h) with
  | inl e => inl e
  | inr seed =>
      let rng := seeded seed in
      let '(w, h_img) := PIL.size pil_image in
      let body : Draw S (list Detection) :=
        n ← choices1 [0; 1; 2; 3] [20; 50; 20; 10];
        draw_loop (Z.to_nat n) (Z.of_N w) (Z.of_N h_img) [] in
      match body rng with
      | inl e => inl e
      | inr (detections, _) => inr detections
      end
  end.

Definition detect (self : t) (pil_image : PIL.Image)
  : Py.Result (list Detection) :=
  if use_mock self then _mock_detect pil_image
  else inl (Py.NotImplementedError "Model-backed detection not implemented.").

End Mock.

End Detector.

(* ===================================================================== *)
(** * The detector inside a running interpreter *)
(* ===================================================================== *)

(** [Detector._mock_detect] once more, this time with the objects of the
    process in view: the [random.Random] instances live in a store, the
    hidden instance behind the module-level functions of [random] among
    them, [random.Random(seed)] allocates a new one, and each call
    [rng.method(...)] reads and updates the instance [rng] refers to. *)
Module Process.

Import Random Detector.
Local Open Scope Z_scope.

(** The [random.Random] instances of the process, by address. *)
Abbreviation World := (gmap positive).

Section World.
Context {S : Type} `{Generator S} `{Hashlib.Sha1}.

(** What a call does to the process: it returns, it raises, or it
    follows a reference to no object (which the interpreter rules out). *)
Inductive Outcome (A : Type) : Type :=
| Returned (x : A) (w : World S)
| Raised (e : Py.Error)
| Dangling.

Arguments Returned {A} x w.
Arguments Raised {A} e.
Arguments Dangling {A}.

Definition Proc (A : Type) : Type := World S -> Outcome A.

#[global] Instance Proc_ret : MRet Proc := fun A x w => Returned x w.
#[global] Instance Proc_bind : MBind Proc := fun A B f p w =>
  match p w with
  | Returned x w' => f x w'
  | Raised e => Raised e
  | Dangling => Dangling
  end.

(** [random.Random(seed)]: a new instance at an address not in use. *)
Definition new_Random (seed : Z) : Proc positive := fun w =>
  let rng := fresh (dom w) in Returned rng (<[rng := seeded seed]> w).

(** [rng.method(...)]: the method runs on the state of the instance at
    [rng] and leaves its new state there. *)
Definition call {A : Type} (rng : positive) (method : Draw S A) : Proc A :=
  fun w =>
    match w !! rng with
    | None => Dangling
    | Some s =>
        match method s with
        | inl e => Raised e
        | inr (x, s') => Returned x (<[rng := s']> w)
        end
    end.

(** The body of [for i in range(n)]. *)
Definition draw_detection (rng : positive) (w h_img : Z) : Proc Detection :=
  lbl ← call rng (choice SUPPORTED);
  c ← call rng (uniform 0.6 0.98);
  let conf := Py.round2 c in
  '(bw, bh) ←
    (if String.eqb lbl "crack" then
       u ← call rng (uniform 0.08 0.4);
       v ← call rng (uniform 0.01 0.05);
       mret (Py.int (inject_Z w * u), Py.int (inject_Z h_img * v))
     else if String.eqb lbl "corrosion" then
       u ← call rng (uniform 0.05 0.25);
       v ← call rng (uniform 0.05 0.25);
       mret (Py.int (inject_Z w * u), Py.int (inject_Z h_img * v))
     else
       u ← call rng (uniform 0.05 0.18);
       v ← call rng (uniform 0.05 0.12);
       mret (Py.int (inject_Z w * u), Py.int (inject_Z h_img * v)));
  ux ← call rng (uniform 0 (inject_Z (Z.max 1 (w - bw))));
  uy ← call rng (uniform 0 (inject_Z (Z.max 1 (h_img - bh))));
  mret (mkDetection lbl (Some conf) (Py.int ux, Py.int uy, bw, bh)).

Fixpoint draw_loop (n : nat) (rng : positive) (w h_img : Z)
    (detections : list Detection) : Proc (list Detection) :=
  match n with
  | O => mret detections
  | Datatypes.S n' =>
      d ← draw_detection rng w h_img;
      draw_loop n' rng w h_img (detections ++ [d])
  end.

Definition _mock_detect (pil_image : PIL.Image) : Proc (list Detection) :=
  let buf := take 1024 (PIL.tobytes pil_image) in
  let h := Hashlib.hexdigest buf in
  match Hashlib.int16 (String.substring 0 8 h) with
  | inl e => fun _ => Raised e
  | inr seed =>
      rng ← new_Random seed;
      let '(w, h_img) := PIL.size pil_image in
      n ← call rng (choices1 [0; 1; 2; 3] [20; 50; 20; 10]);
      draw_loop (Z.to_nat n) rng (Z.of_N w) (Z.of_N h_img) []
  end.

Definition detect (self : Detector.t) (pil_image : PIL.Image)
  : Proc (list Detection) :=
  if use_mock self then _mock_detect pil_image
  else fun _ =>
    Raised (Py.NotImplementedError "Model-backed detection not implemented.").

End World.

Arguments Outcome : clear implicits.
Arguments Proc : clear implicits.
Arguments Returned {S A} x w.
Arguments Raised {S A} e.
Arguments Dangling {S A}.

End Process.

(* ===================================================================== *)
(** * The design document's reference definitions *)
(* ===================================================================== *)

Module Spec.

Import Reasoner.
Local Open Scope Z_scope.

(** The total order [low < medium < high]. *)
Definition sev_le (a b : Severity) : Prop :=
  match a, b with
  | Low, _ => True
  | Medium, Low => False
  | Medium, _ => True
  | High, High => True
  | High, _ => False
  end.

(** The per-finding severity rules of section 4.2, written from the
    document: thresholds on [confidence], [length_ratio] and [area_ratio],
    all denominators being [max(1, ...)]. *)
Definition spec_length_ratio (box_width box_height image_width image_height : Z)
  : Q :=
  (inject_Z (Z.max box_width box_height)
   / inject_Z (Z.max 1 (Z.max image_width image_height)))%Q.

Definition spec_area_ratio (box_width box_height image_width image_height : Z)
  : Q :=
  (inject_Z (box_width * box_height)
   / inject_Z (Z.max 1 (image_width * image_height)))%Q.

(** [x > threshold], decided on the rationals. *)
Definition exceeds (x threshold : Q) : bool :=
  if Qlt_le_dec threshold x then true else false.

Definition spec_severity (lbl : string) (conf : Q)
    (box_width box_height image_width image_height : Z) : Severity :=
  let length_ratio :=
    spec_length_ratio box_width box_height image_width image_height in
  let area_ratio :=
    spec_area_ratio box_width box_height image_width image_height in
  if decide (lbl = "leak") then
    if exceeds conf 0.70 then High else Medium
  else if decide (lbl = "crack") then
    if exceeds length_ratio 0.25 || exceeds area_ratio 0.02 then High
    else if exceeds length_ratio 0.08 then Medium
    else Low
  else if decide (lbl = "corrosion") then
    if exceeds area_ratio 0.06 then High
    else if exceeds area_ratio 0.02 then Medium
    else Low
  else Low.

(** The number of entries the recommendation rules give one observation:
    two messages for [high] and [medium], one for [low], and the caveat
    when the confidence is below 0.75. *)
Definition spec_recommendation_count (sev : Severity) (conf : Q) : nat :=
  (match sev with Low => 1 | _ => 2 end
   + (if Qlt_le_dec conf 0.75 then 1 else 0))%nat.

(** The two ratios of an observation's box on an image of the given
    size. *)
Definition box_area_ratio (d : Detection) (image_size : Z * Z) : Q :=
  let '(x, y, w, h) := bbox d in
  let '(img_w, img_h) := image_size in
  spec_area_ratio w h img_w img_h.

Definition box_length_ratio (d : Detection) (image_size : Z * Z) : Q :=
  let '(x, y, w, h) := bbox d in
  let '(img_w, img_h) := image_size in
  spec_length_ratio w h img_w img_h.

(** How many observations carry the label [lbl]. *)
Definition occurrences (lbl : string) (ds : list Detection) : Z :=
  Z.of_nat (length (filter (fun d => label d = lbl) ds)).

(** The box of [d] has non-negative sides and lies inside an image of size
    [(w, h_img)]. *)
Definition within_image (w h_img : Z) (d : Detection) : Prop :=
  let '(x, y, bw, bh) := bbox d in
  0 <= x /\ 0 <= y /\ 0 <= bw /\ 0 <= bh
  /\ x + bw <= w /\ y + bh <= h_img.

End Spec.

(* ===================================================================== *)
(** * Auxiliary definitions *)
(* ===================================================================== *)

Module Aux.

Import Reasoner.

(** What one iteration of the loop in [analyze] appends to
    [sop_mappings] and to [recs]. *)
Definition mapping_of (d : Detection) : SopMapping :=
  let meta := SOP_DB !! label d in
  {| m_label := label d;
     m_iso := default "N/A" (iso <$> meta);
     m_sop := default "Refer engineering SOP." (sop <$> meta);
     m_priority := default "P3" (priority <$> meta) |}.

Definition recs_of (image_size : Z * Z) (d : Detection) : list string :=
  _recommendations_for (label d) (_estimate_severity d image_size) d.

(** [returns m P]: from every generator state, [m] raises nothing and its
    value satisfies [P]. *)
Definition returns {S A : Type} (m : Random.Draw S A) (P : A -> Prop) : Prop :=
  forall s, exists x s', m s = inr (x, s') /\ P x.

(** [simulates rng p m]: in every store where [rng] refers to an instance,
    the process-level computation [p] does what the method-level [m] does
    from the state of that instance, and touches nothing but it. *)
Definition simulates {S A : Type} (rng : positive) (p : Process.Proc S A)
    (m : Random.Draw S A) : Prop :=
  forall (w : Process.World S) (s : S),
    w !! rng = Some s ->
    p w = match m s with
          | inl e => Process.Raised e
          | inr (x, s') => Process.Returned x (<[rng := s']> w)
          end.

(** The sum of the values of a mapping of counters. *)
Definition sum_counts (m : gmap string Z) : Z :=
  map_fold (fun _ v acc => v + acc) 0 m.

(** Whether a string has a colon in it. *)
Fixpoint has_colon (s : string) : bool :=
  match s with
  | EmptyString => false
  | String c s' => Ascii.eqb c ":" || has_colon s'
  end.

(** [box] is the truncation of a fraction of [side] lying between
    [lo] and [hi] percent. *)
Definition side_within (side box lo hi : Z) : Prop :=
  lo * side < 100 * (box + 1) /\ 100 * box <= hi * side.

(** What [_mock_detect] promises of an observation on an image of size
    [(w, h_img)]: a supported label, a confidence between 0.6 and 0.98,
    and box sides in the percentage ranges of the label. *)
Definition generated (w h_img : Z) (d : Detection) : Prop :=
  let '(x, y, bw, bh) := bbox d in
  (exists c, confidence d = Some c /\ (0.6 <= c)%Q /\ (c <= 0.98)%Q)
  /\ ((label d = "crack"
       /\ side_within w bw 8 40 /\ side_within h_img bh 1 5)
      \/ (label d = "corrosion"
          /\ side_within w bw 5 25 /\ side_within h_img bh 5 25)
      \/ (label d = "leak"
          /\ side_within w bw 5 18 /\ side_within h_img bh 5 12)).

End Aux.

(* ===================================================================== *)
(** * An executable instance of the library interfaces *)
(* ===================================================================== *)

(** A checksum in place of SHA-1 and a linear congruential generator in
    place of the Mersenne Twister.  They satisfy the interfaces above, so
    the detector can be run on concrete images. *)
Module Reference.

Local Open Scope Z_scope.

Definition hex_char (d : Z) : ascii :=
  match d with
  | 0 => "0" | 1 => "1" | 2 => "2" | 3 => "3" | 4 => "4" | 5 => "5"
  | 6 => "6" | 7 => "7" | 8 => "8" | 9 => "9" | 10 => "a" | 11 => "b"
  | 12 => "c" | 13 => "d" | 14 => "e" | _ => "f"
  end%char.

Definition checksum (buf : list Byte.byte) : Z :=
  fold_left (fun acc b => (acc * 31 + Z.of_N (Byte.to_N b)) mod 2 ^ 32)
    buf 7.

Definition nibble (z : Z) (k : Z) : ascii := hex_char ((z / 16 ^ k) mod 16).

Definition checksum_hex (buf : list Byte.byte) : string :=
  let z := checksum buf in
  String (nibble z 7) (String (nibble z 6) (String (nibble z 5)
  (String (nibble z 4) (String (nibble z 3) (String (nibble z 2)
  (String (nibble z 1) (String (nibble z 0)
  "00000000000000000000000000000000"))))))).

Lemma hex_char_digit d : 0 <= d < 16 -> is_Some (Hashlib.hex_digit (hex_char d)).
Proof.
  intros Hd.
  assert (Hcases : d = 0 \/ d = 1 \/ d = 2 \/ d = 3 \/ d = 4 \/ d = 5 \/ d = 6
    \/ d = 7 \/ d = 8 \/ d = 9 \/ d = 10 \/ d = 11 \/ d = 12 \/ d = 13
    \/ d = 14 \/ d = 15) by lia.
  repeat (destruct Hcases as [-> | Hcases]; [vm_compute; eauto |]).
  subst d. vm_compute. eauto.
Qed.

Lemma nibble_digit z k :
  bool_decide (is_Some (Hashlib.hex_digit (nibble z k))) = true.
Proof.
  apply bool_decide_eq_true. apply hex_char_digit.
  apply Z.mod_pos_bound. lia.
Qed.

Lemma checksum_hex_length buf : String.length (checksum_hex buf) = 40%nat.
Proof. reflexivity. Qed.

Lemma checksum_hex_all_hex buf : Hashlib.all_hex (checksum_hex buf) = true.
Proof.
  unfold checksum_hex. cbn [Hashlib.all_hex].
  rewrite !nibble_digit. reflexivity.
Qed.

#[export] Instance sha1 : Hashlib.Sha1 := {|
  Hashlib.hexdigest := checksum_hex;
  Hashlib.hexdigest_length := checksum_hex_length;
  Hashlib.hexdigest_hex := checksum_hex_all_hex
|}.

(** The generator state is the last value of the recurrence. *)
Definition lcg_next (s : Z) : Z := (1103515245 * s + 12345) mod 2 ^ 31.

Definition lcg_random (s : Z) : Q * Z :=
  let s' := lcg_next s in (Qmake s' (2 ^ 31), s').

Definition lcg_randbelow (n : Z) (s : Z) : Z * Z :=
  let s' := lcg_next s in ((s' / 2 ^ 16) mod n, s').

Lemma lcg_next_range s : 0 <= lcg_next s < 2 ^ 31.
Proof. unfold lcg_next. apply Z.mod_pos_bound. lia. Qed.

Lemma lcg_random_range s :
  (0 <= fst (lcg_random s) /\ fst (lcg_random s) < 1)%Q.
Proof.
  pose proof (lcg_next_range s) as Hs.
  unfold lcg_random. cbn [fst]. unfold Qle, Qlt. cbn [Qnum Qden].
  change (Z.pos (2 ^ 31)) with (2 ^ 31). lia.
Qed.

Lemma lcg_randbelow_range n s : 0 < n -> 0 <= fst (lcg_randbelow n s) < n.
Proof. intros Hn. unfold lcg_randbelow. cbn [fst]. apply Z.mod_pos_bound. lia. Qed.

#[export] Instance generator : Random.Generator Z := {|
  Random.seeded := fun z => z mod 2 ^ 31;
  Random.random := lcg_random;
  Random._randbelow := lcg_randbelow;
  Random.random_range := lcg_random_range;
  Random._randbelow_range := lcg_randbelow_range
|}.

End Reference.

(* ===================================================================== *)
(** * Rounding to binary64 *)
(* ===================================================================== *)

Module PyProps.

Local Open Scope Z_scope.

Lemma round_half_even_cases x :
  Py.round_half_even x = Qfloor x \/ Py.round_half_even x = Qfloor x + 1.
Proof.
  unfold Py.round_half_even.
  destruct (x - inject_Z (Qfloor x) ?= 1 # 2)%Q; [| auto | auto].
  destruct (Z.even (Qfloor x)); auto.
Qed.

Lemma round_half_even_bounds (x : Q) (lo hi : Z) :
  (inject_Z lo <= x)%Q -> (x <= inject_Z hi)%Q ->
  lo <= Py.round_half_even x <= hi.
Proof.
  intros Hlo Hhi. unfold Py.round_half_even.
  pose proof (Qfloor_le x) as Hfl.
  assert (Hf1 : lo <= Qfloor x).
  { rewrite <- (Qfloor_Z lo). by apply Qfloor_resp_le. }
  assert (Hf2 : Qfloor x <= hi).
  { rewrite <- (Qfloor_Z hi). by apply Qfloor_resp_le. }
  assert (Hup : (inject_Z (Qfloor x) < x)%Q -> Qfloor x + 1 <= hi).
  { intros Hlt. cut (Qfloor x < hi); [lia |].
    rewrite Zlt_Qlt. eapply Qlt_le_trans; [exact Hlt | exact Hhi]. }
  destruct (x - inject_Z (Qfloor x) ?= 1 # 2)%Q eqn:Hcmp.
  - apply Qeq_alt in Hcmp.
    destruct (Z.even (Qfloor x)); [lia |].
    split; [lia |]. apply Hup. lra.
  - lia.
  - apply Qgt_alt in Hcmp. split; [lia |]. apply Hup. lra.
Qed.

Lemma round_half_even_comp x y : (x == y)%Q -> Py.round_half_even x = Py.round_half_even y.
Proof.
  intros Hxy. unfold Py.round_half_even.
  rewrite (Qfloor_comp x y Hxy).
  assert (Hr : (x - inject_Z (Qfloor y) == y - inject_Z (Qfloor y))%Q)
    by (rewrite Hxy; reflexivity).
  rewrite (Qcompare_comp _ _ Hr (1 # 2) (1 # 2) (Qeq_refl _)). reflexivity.
Qed.

Lemma round_half_even_mono x y :
  (x <= y)%Q -> Py.round_half_even x <= Py.round_half_even y.
Proof.
  intros Hxy.
  pose proof (Qfloor_resp_le x y Hxy) as Hfl.
  destruct (Z.eq_dec (Qfloor x) (Qfloor y)) as [Heq | Hne].
  - unfold Py.round_half_even. rewrite Heq.
    destruct (x - inject_Z (Qfloor y) ?= 1 # 2)%Q eqn:Hx;
      destruct (y - inject_Z (Qfloor y) ?= 1 # 2)%Q eqn:Hy;
      try (destruct (Z.even (Qfloor y))); try lia; exfalso;
      repeat match goal with
             | H : (_ ?= _)%Q = Eq |- _ => apply Qeq_alt in H
             | H : (_ ?= _)%Q = Lt |- _ => apply Qlt_alt in H
             | H : (_ ?= _)%Q = Gt |- _ => apply Qgt_alt in H
             end; lra.
  - destruct (round_half_even_cases x) as [-> | ->],
      (round_half_even_cases y) as [-> | ->]; lia.
Qed.

Lemma pow2_pos k : (0 < 2 ^ k)%Q.
Proof. apply Qpower_0_lt. reflexivity. Qed.

Lemma pow2_add a b : (2 ^ (a + b) == 2 ^ a * 2 ^ b)%Q.
Proof. apply Qpower_plus. discriminate. Qed.

Lemma pow2_le a b : a <= b -> (2 ^ a <= 2 ^ b)%Q.
Proof. intros. apply Qpower_le_compat_l; [assumption | discriminate]. Qed.

Lemma pow2_lt a b : a < b -> (2 ^ a < 2 ^ b)%Q.
Proof. intros. apply Qpower_lt_compat_l; [assumption | reflexivity]. Qed.

Lemma pow2_Z k : 0 <= k -> (2 ^ k == inject_Z (2 ^ k))%Q.
Proof. intros Hk. symmetry. apply (Zpower_Qpower 2 k Hk). Qed.

Lemma ilog2_spec x :
  (0 < x)%Q -> (2 ^ Py.ilog2 x <= x)%Q /\ (x < 2 ^ (Py.ilog2 x + 1))%Q.
Proof.
  intros Hx. unfold Py.ilog2.
  destruct (Qle_bool 1 x) eqn:H1.
  - apply Qle_bool_iff in H1.
    assert (Hn : 1 <= Qfloor x).
    { rewrite <- (Qfloor_Z 1). by apply Qfloor_resp_le. }
    destruct (Z.log2_spec (Qfloor x)) as [Hlo Hhi]; [lia |].
    pose proof (Z.log2_nonneg (Qfloor x)) as Hnn.
    split.
    + rewrite pow2_Z by lia.
      eapply Qle_trans; [| apply Qfloor_le]. by rewrite <- Zle_Qle.
    + rewrite pow2_Z by lia.
      eapply Qlt_le_trans; [apply Qlt_floor |]. rewrite <- Zle_Qle.
      rewrite Z.add_1_r. lia.
  - assert (Hlt : (x < 1)%Q).
    { apply Qnot_le_lt. intros Hc. apply Qle_bool_iff in Hc. congruence. }
    assert (Hinv : (1 < / x)%Q).
    { apply Qlt_shift_inv_l; [exact Hx |]. lra. }
    assert (Hc : 2 <= Qceiling (/ x)).
    { pose proof (Qle_ceiling (/ x)) as Hle.
      assert (Hq : (inject_Z 1 < inject_Z (Qceiling (/ x)))%Q).
      { eapply Qlt_le_trans; [exact Hinv | exact Hle]. }
      rewrite <- Zlt_Qlt in Hq. lia. }
    destruct (Z.log2_up_spec (Qceiling (/ x))) as [Hlo Hhi]; [lia |].
    pose proof (Z.log2_up_nonneg (Qceiling (/ x))) as Hnn.
    set (k := Z.log2_up (Qceiling (/ x))) in *.
    assert (Hk : 1 <= k).
    { destruct (Z.eq_dec k 0) as [H0 | H0]; [| lia].
      rewrite H0 in Hhi. cbn in Hhi. lia. }
    assert (Hxinv : (x * / x == 1)%Q) by (apply Qmult_inv_r; lra).
    split.
    + rewrite Qpower_opp. apply Qle_shift_inv_r; [apply pow2_pos |].
      (* 1 <= x * 2^k because /x <= 2^k *)
      assert (Hle : (/ x <= 2 ^ k)%Q).
      { rewrite pow2_Z by lia. eapply Qle_trans; [apply Qle_ceiling |].
        by rewrite <- Zle_Qle. }
      assert (Hm : (x * / x <= x * 2 ^ k)%Q).
      { apply Qmult_le_l; assumption. }
      rewrite Hxinv in Hm. exact Hm.
    + replace (- k + 1) with (- (k - 1)) by lia.
      rewrite Qpower_opp. apply Qlt_shift_inv_l; [apply pow2_pos |].
      assert (Hgt : (2 ^ (k - 1) < / x)%Q).
      { rewrite pow2_Z by lia.
        eapply Qle_lt_trans; [| apply Qceiling_lt].
        rewrite <- Zle_Qle. replace (k - 1) with (Z.pred k) by lia. lia. }
      assert (Hm : (x * 2 ^ (k - 1) < x * / x)%Q).
      { apply Qmult_lt_l; assumption. }
      rewrite Hxinv in Hm. exact Hm.
Qed.

Lemma ilog2_mono x y : (0 < x)%Q -> (x <= y)%Q -> Py.ilog2 x <= Py.ilog2 y.
Proof.
  intros Hx Hxy.
  destruct (ilog2_spec x Hx) as [Hlo _].
  destruct (ilog2_spec y) as [_ Hhi]; [lra |].
  cut (Py.ilog2 x < Py.ilog2 y + 1); [lia |].
  apply (Qpower_lt_compat_l_inv 2); [| reflexivity].
  eapply Qle_lt_trans; [exact Hlo |]. eapply Qle_lt_trans; eassumption.
Qed.

Lemma ilog2_comp x y : (0 < x)%Q -> (x == y)%Q -> Py.ilog2 x = Py.ilog2 y.
Proof.
  intros Hx Hxy.
  assert (Py.ilog2 x <= Py.ilog2 y) by (apply ilog2_mono; [assumption | lra]).
  assert (Py.ilog2 y <= Py.ilog2 x) by (apply ilog2_mono; lra).
  lia.
Qed.

Lemma round_pos_nonneg x : (0 < x)%Q -> (0 <= Py.round_pos x)%Q.
Proof.
  intros Hx. unfold Py.round_pos.
  apply Qmult_le_0_compat; [| apply Qlt_le_weak, pow2_pos].
  change 0%Q with (inject_Z 0). rewrite <- Zle_Qle.
  apply (round_half_even_bounds _ 0 (Qceiling (x / 2 ^ (Z.max (Py.ilog2 x) (-1022) - 52)))).
  - change (inject_Z 0) with 0%Q. apply Qle_shift_div_l; [apply pow2_pos | lra].
  - apply Qle_ceiling.
Qed.

Lemma round_pos_comp x y : (0 < x)%Q -> (x == y)%Q -> (Py.round_pos x == Py.round_pos y)%Q.
Proof.
  intros Hx Hxy. unfold Py.round_pos.
  rewrite (ilog2_comp x y Hx Hxy).
  rewrite (round_half_even_comp (x / 2 ^ (Z.max (Py.ilog2 y) (-1022) - 52))
             (y / 2 ^ (Z.max (Py.ilog2 y) (-1022) - 52))); [reflexivity |].
  by rewrite Hxy.
Qed.

Lemma round_pos_mono x y :
  (0 < x)%Q -> (x <= y)%Q -> (Py.round_pos x <= Py.round_pos y)%Q.
Proof.
  intros Hx Hxy.
  assert (Hy : (0 < y)%Q) by lra.
  pose proof (ilog2_mono x y Hx Hxy) as He.
  destruct (ilog2_spec x Hx) as [_ Hxhi].
  destruct (ilog2_spec y Hy) as [Hylo _].
  unfold Py.round_pos.
  set (ux := Z.max (Py.ilog2 x) (-1022) - 52).
  set (uy := Z.max (Py.ilog2 y) (-1022) - 52).
  assert (Hu : ux <= uy) by (unfold ux, uy; lia).
  pose proof (pow2_pos ux) as Hpx. pose proof (pow2_pos uy) as Hpy.
  destruct (Z.eq_dec ux uy) as [Heq | Hne].
  - rewrite Heq. apply Qmult_le_compat_r; [| lra].
    rewrite <- Zle_Qle. apply round_half_even_mono.
    apply Qmult_le_compat_r; [exact Hxy |].
    apply Qlt_le_weak, Qinv_lt_0_compat, pow2_pos.
  - assert (Hlt : ux < uy) by lia. clear Hne Hu.
    assert (Hey : Py.ilog2 y = uy + 52) by (unfold ux, uy in *; lia).
    assert (Hex : Py.ilog2 x + 1 <= ux + 53) by (unfold ux; lia).
    (* the boundary 2^(uy+52) separates the two results *)
    apply Qle_trans with (2 ^ (uy + 52))%Q.
    + set (n := uy + 52 - ux).
      assert (Hn : 0 <= n) by (unfold n; lia).
      assert (Hb : (2 ^ (uy + 52) == inject_Z (2 ^ n) * 2 ^ ux)%Q).
      { rewrite <- pow2_Z by exact Hn. rewrite <- pow2_add.
        unfold n. replace (uy + 52 - ux + ux) with (uy + 52) by lia.
        reflexivity. }
      rewrite Hb. apply Qmult_le_compat_r; [| lra].
      rewrite <- Zle_Qle.
      apply (round_half_even_bounds _ (Qfloor (x / 2 ^ ux))); [apply Qfloor_le |].
      apply Qle_shift_div_r; [exact Hpx |]. rewrite <- Hb.
      apply Qlt_le_weak. eapply Qlt_le_trans; [exact Hxhi |].
      apply pow2_le. lia.
    + assert (Hb : (2 ^ (uy + 52) == inject_Z (2 ^ 52) * 2 ^ uy)%Q).
      { rewrite <- pow2_Z by lia. rewrite <- pow2_add.
        replace (52 + uy) with (uy + 52) by lia. reflexivity. }
      rewrite Hb at 1. apply Qmult_le_compat_r; [| lra].
      rewrite <- Zle_Qle.
      apply (round_half_even_bounds _ _ (Qceiling (y / 2 ^ uy))); [| apply Qle_ceiling].
      apply Qle_shift_div_l; [exact Hpy |]. rewrite <- Hb.
      rewrite <- Hey. exact Hylo.
Qed.

Lemma b64_comp x y : (x == y)%Q -> (Py.b64 x == Py.b64 y)%Q.
Proof.
  intros Hxy. unfold Py.b64.
  rewrite (Qcompare_comp x y Hxy 0 0 (Qeq_refl 0))%Q.
  destruct (y ?= 0)%Q eqn:Hc.
  - reflexivity.
  - apply Qlt_alt in Hc. apply Qopp_comp. apply round_pos_comp; lra.
  - apply Qgt_alt in Hc. apply round_pos_comp; lra.
Qed.

Lemma b64_mono x y : (x <= y)%Q -> (Py.b64 x <= Py.b64 y)%Q.
Proof.
  intros Hxy. unfold Py.b64.
  destruct (x ?= 0)%Q eqn:Hx; destruct (y ?= 0)%Q eqn:Hy;
    repeat match goal with
           | H : (_ ?= _)%Q = Eq |- _ => apply Qeq_alt in H
           | H : (_ ?= _)%Q = Lt |- _ => apply Qlt_alt in H
           | H : (_ ?= _)%Q = Gt |- _ => apply Qgt_alt in H
           end; try lra.
  - pose proof (round_pos_nonneg y). lra.
  - pose proof (round_pos_nonneg (- x)). lra.
  - apply Qopp_le_compat. apply round_pos_mono; lra.
  - pose proof (round_pos_nonneg (- x)). pose proof (round_pos_nonneg y). lra.
  - apply round_pos_mono; lra.
Qed.

(** ** Comparisons *)

Lemma gtb_iff_lt a b : Py.gtb a b = true <-> (b < a)%Q.
Proof.
  unfold Py.gtb. rewrite negb_true_iff, <- not_true_iff_false, Qle_bool_iff.
  split; [apply Qnot_le_lt | apply Qlt_not_le].
Qed.

Lemma gtb_iff_le a b : Py.gtb a b = false <-> (a <= b)%Q.
Proof.
  unfold Py.gtb. rewrite negb_false_iff. apply Qle_bool_iff.
Qed.

Lemma gtb_comp a a' b : (a == a')%Q -> Py.gtb a b = Py.gtb a' b.
Proof.
  intros Ha. destruct (Py.gtb a' b) eqn:Hb.
  - apply gtb_iff_lt. apply gtb_iff_lt in Hb. by rewrite Ha.
  - apply gtb_iff_le. apply gtb_iff_le in Hb. by rewrite Ha.
Qed.

(** A greater quotient exceeds whatever threshold a smaller one does. *)
Lemma gtb_b64_mono x y t :
  (x <= y)%Q -> Py.gtb (Py.b64 x) t = true -> Py.gtb (Py.b64 y) t = true.
Proof.
  intros Hxy Hx. apply gtb_iff_lt. apply gtb_iff_lt in Hx.
  eapply Qlt_le_trans; [exact Hx | by apply b64_mono].
Qed.

(** ** Quotients against a threshold in hundredths *)

(** With a divisor of at most [B], a quotient above [p / 100] is above it
    by [1 / (100 * B)] at least, which rounding to binary64 keeps apart
    from the threshold as soon as it does so at that distance. *)
Lemma truediv_threshold (p B : positive) (a b : Z) :
  (Py.b64 (Zpos p # 100) < Py.b64 ((Zpos p # 100) + (1 # 100 * B)))%Q ->
  1 <= b <= Zpos B ->
  Py.gtb (Py.truediv a b) (Py.float (Zpos p # 100))
  = if Qlt_le_dec (Zpos p # 100) (inject_Z a / inject_Z b) then true
    else false.
Proof.
  intros Hgap Hb. unfold Py.truediv, Py.float.
  destruct (Qlt_le_dec (Zpos p # 100) (inject_Z a / inject_Z b)) as [Hlt | Hle].
  - apply gtb_iff_lt. eapply Qlt_le_trans; [exact Hgap |].
    apply b64_mono.
    destruct b as [| bp | bp]; try lia.
    rewrite <- Qmake_Qdiv in Hlt |- *.
    unfold Qlt in Hlt. unfold Qle, Qplus. cbn [Qnum Qden] in Hlt |- *.
    rewrite !Pos2Z.inj_mul.
    change (Z.pos 100) with 100 in *. nia.
  - apply gtb_iff_le. by apply b64_mono.
Qed.

(** The four thresholds of the severity rules. *)
Lemma gap_area_2 :
  (Py.b64 (2 # 100) < Py.b64 ((2 # 100) + (1 # 100 * 2 ^ 50)))%Q.
Proof. vm_compute. reflexivity. Qed.

Lemma gap_area_6 :
  (Py.b64 (6 # 100) < Py.b64 ((6 # 100) + (1 # 100 * 2 ^ 50)))%Q.
Proof. vm_compute. reflexivity. Qed.

Lemma gap_length_8 :
  (Py.b64 (8 # 100) < Py.b64 ((8 # 100) + (1 # 100 * 2 ^ 25)))%Q.
Proof. vm_compute. reflexivity. Qed.

Lemma gap_length_25 :
  (Py.b64 (25 # 100) < Py.b64 ((25 # 100) + (1 # 100 * 2 ^ 25)))%Q.
Proof. vm_compute. reflexivity. Qed.

(** Rounding does not cross a binary64 number. *)
Lemma b64_above (c x : Q) : (Py.b64 c == c)%Q -> (c <= x)%Q -> (c <= Py.b64 x)%Q.
Proof. intros Hc Hx. rewrite <- Hc. by apply b64_mono. Qed.

Lemma b64_below (c x : Q) : (Py.b64 c == c)%Q -> (x <= c)%Q -> (Py.b64 x <= c)%Q.
Proof. intros Hc Hx. rewrite <- Hc. by apply b64_mono. Qed.

(** Multiplying both terms of a quotient by [k > 0] does not change it. *)
Lemma quotient_scale (k a b : Z) :
  0 < k -> 0 < b ->
  (inject_Z (k * a) / inject_Z (k * b) == inject_Z a / inject_Z b)%Q.
Proof.
  intros Hk Hb. rewrite !inject_Z_mult. field.
  split; intros Hz.
  - assert (Hb' : (inject_Z 0 < inject_Z b)%Q) by (rewrite <- Zlt_Qlt; lia).
    change (inject_Z 0) with 0%Q in Hb'. lra.
  - assert (Hk' : (inject_Z 0 < inject_Z k)%Q) by (rewrite <- Zlt_Qlt; lia).
    change (inject_Z 0) with 0%Q in Hk'. lra.
Qed.

End PyProps.

(* ===================================================================== *)
(** * Properties of the severity reasoner *)
(* ===================================================================== *)

Module ReasonerProps.

Import Reasoner Spec Aux.
Local Open Scope Z_scope.

(** ** Comparisons *)

Lemma gtb_true a b : Py.gtb a b = true <-> (b < a)%Q.
Proof.
  unfold Py.gtb. rewrite negb_true_iff, <- not_true_iff_false, Qle_bool_iff.
  split; [apply Qnot_le_lt | apply Qlt_not_le].
Qed.

Lemma gtb_false a b : Py.gtb a b = false <-> (a <= b)%Q.
Proof.
  unfold Py.gtb. rewrite negb_false_iff. apply Qle_bool_iff.
Qed.

(** [Py.gtb] decided by the order on [Q]. *)
Lemma gtb_dec a b :
  Py.gtb a b = if Qlt_le_dec b a then true else false.
Proof.
  destruct (Qlt_le_dec b a) as [Hlt | Hle].
  - by apply gtb_true.
  - by apply gtb_false.
Qed.

Lemma ltb_dec a b :
  Py.ltb a b = if Qlt_le_dec a b then true else false.
Proof. apply gtb_dec. Qed.

Lemma eqb_decide (a b : string) :
  String.eqb a b = if decide (a = b) then true else false.
Proof.
  destruct (String.eqb_spec a b), (decide (a = b)); congruence.
Qed.

(** ** The reference table *)

Lemma SOP_DB_lookup (lbl : string) :
  SOP_DB !! lbl =
    if decide (lbl = "crack") then
      Some (mkSopEntry "ISO 6508"
        "Inspect crack length; measure propagation; schedule NDT (ultrasonic)."
        "P2")
    else if decide (lbl = "corrosion") then
      Some (mkSopEntry "ISO 9227"
        "Assess corrosion depth/area; clean and apply corrosion inhibitor; consider replacement."
        "P2")
    else if decide (lbl = "leak") then
      Some (mkSopEntry "ISO 5167"
        "Isolate line; perform pressure test; immediate repair if active leak."
        "P1")
    else None.
Proof.
  unfold SOP_DB. repeat case_decide; subst; by simplify_map_eq.
Qed.

(** A severity above [low] is only ever given to a label of the table. *)
Lemma estimate_above_low_known d image_size :
  _estimate_severity d image_size <> Low -> is_Some (SOP_DB !! label d).
Proof.
  unfold _estimate_severity.
  destruct (bbox d) as [[[x y] w] h], image_size as [img_w img_h].
  rewrite SOP_DB_lookup, !eqb_decide.
  repeat case_decide; subst; eauto; congruence.
Qed.

(** ** The loop of [analyze] *)

Lemma fold_mappings image_size ds a :
  acc_mappings (fold_left (analyze_step image_size) ds a)
  = acc_mappings a ++ map mapping_of ds.
Proof.
  revert a. induction ds as [| d ds IH]; intros a; cbn [fold_left map].
  - by rewrite app_nil_r.
  - rewrite IH. cbn [analyze_step acc_mappings]. by rewrite <- app_assoc.
Qed.

Lemma fold_recs image_size ds a :
  acc_recs (fold_left (analyze_step image_size) ds a)
  = acc_recs a ++ concat (map (recs_of image_size) ds).
Proof.
  revert a. induction ds as [| d ds IH]; intros a; cbn [fold_left map concat].
  - by rewrite app_nil_r.
  - rewrite IH. cbn [analyze_step acc_recs]. by rewrite <- app_assoc.
Qed.

Lemma occurrences_cons lbl d ds :
  occurrences lbl (d :: ds)
  = (if decide (label d = lbl) then 1 else 0) + occurrences lbl ds.
Proof.
  unfold occurrences. rewrite filter_cons.
  case_decide; cbn [length]; lia.
Qed.

Lemma occurrences_nonneg lbl ds : 0 <= occurrences lbl ds.
Proof. unfold occurrences. lia. Qed.

Lemma fold_counts image_size ds a lbl :
  acc_counts (fold_left (analyze_step image_size) ds a) !! lbl
  = if decide (0 < occurrences lbl ds)
    then Some (default 0 (acc_counts a !! lbl) + occurrences lbl ds)
    else acc_counts a !! lbl.
Proof.
  revert a. induction ds as [| d ds IH]; intros a; cbn [fold_left].
  - by rewrite decide_False by (unfold occurrences; cbn; lia).
  - rewrite IH, occurrences_cons. cbn [analyze_step acc_counts].
    pose proof (occurrences_nonneg lbl ds) as Hk.
    destruct (decide (label d = lbl)) as [-> | Hne].
    + rewrite lookup_insert_eq. cbn [default].
      unfold id. repeat case_decide; try lia; f_equal; lia.
    + rewrite lookup_insert_ne by done.
      by rewrite Z.add_0_l.
Qed.


(** ** Aggregation *)

Lemma sev_le_order a b : Spec.sev_le a b <-> order a <= order b.
Proof. destruct a, b; cbn; intuition lia. Qed.

Lemma fold_aggregate_bounds image_size ds worst :
  let r := fold_left (aggregate_step image_size) ds worst in
  order worst <= order r
  /\ Forall (fun d => order (_estimate_severity d image_size) <= order r) ds
  /\ (r = worst \/ Exists (fun d => _estimate_severity d image_size = r) ds).
Proof.
  revert worst. induction ds as [| d ds IH]; intros worst; cbn [fold_left].
  - repeat split; [lia | constructor | by left].
  - destruct (IH (aggregate_step image_size worst d)) as (Hle & Hall & Hatt).
    assert (Hstep : order worst <= order (aggregate_step image_size worst d)
                    /\ order (_estimate_severity d image_size)
                       <= order (aggregate_step image_size worst d)).
    { unfold aggregate_step. destruct (Z.gtb_spec (order (_estimate_severity d image_size))
        (order worst)); lia. }
    repeat split.
    + lia.
    + constructor; [lia | exact Hall].
    + destruct Hatt as [Heq | Hex].
      * rewrite Heq. unfold aggregate_step.
        destruct (order (_estimate_severity d image_size) >? order worst).
        -- right. by constructor.
        -- by left.
      * right. by constructor 2.
Qed.


(** ** Per-finding severity *)

(** C3, as stated, fails beyond the sizes binary64 resolves.  A crack of
    700000000000001 x 1 on an image of 8750000000000012 x 100 has a
    [length_ratio] just above 0.08, so the reference rules make it medium;
    the code's quotient rounds onto the value of the literal [0.08], is not
    greater, and the crack is low. *)
Lemma severity_rounding_counterexample :
  _estimate_severity
    (mkDetection "crack" (Some 0.8%Q) (0, 0, 700000000000001, 1))
    (8750000000000012, 100)
  = Low
  /\ Spec.spec_severity "crack" 0.8%Q 700000000000001 1 8750000000000012 100
     = Medium.
Proof. split; vm_compute; reflexivity. Qed.

(** C3, amended. For every observation and image size whose box sides and
    image sides are at most [2 ^ 25] in absolute value, the severity
    computed by [_estimate_severity] is the one the reference rules give: a
    leak is high when its confidence exceeds 0.70 and medium otherwise; a
    crack is high when [length_ratio > 0.25] or [area_ratio > 0.02], medium
    when [length_ratio > 0.08], low otherwise; corrosion is high above an
    [area_ratio] of 0.06, medium above 0.02, low otherwise; every other
    label is low. *)
Theorem estimate_severity_reference lbl conf x y w h img_w img_h :
  Z.abs w <= 2 ^ 25 -> Z.abs h <= 2 ^ 25 ->
  Z.abs img_w <= 2 ^ 25 -> Z.abs img_h <= 2 ^ 25 ->
  _estimate_severity (mkDetection lbl (Some conf) (x, y, w, h)) (img_w, img_h)
  = Spec.spec_severity lbl conf w h img_w img_h.
Proof.
  intros Hw Hh Hiw Hih.
  assert (Harea : 1 <= Z.max 1 (img_w * img_h) <= Zpos (2 ^ 50)).
  { change (Zpos (2 ^ 50)) with (2 ^ 25 * 2 ^ 25). nia. }
  assert (Hlen : 1 <= Z.max 1 (Z.max img_w img_h) <= Zpos (2 ^ 25)).
  { change (Zpos (2 ^ 25)) with (2 ^ 25). lia. }
  unfold _estimate_severity, Spec.spec_severity, get_confidence.
  cbn [label bbox confidence default]. unfold id.
  unfold area_ratio, length_ratio,
    Spec.spec_area_ratio, Spec.spec_length_ratio, exceeds.
  change 0.25%Q with (25 # 100). change 0.02%Q with (2 # 100).
  change 0.08%Q with (8 # 100). change 0.06%Q with (6 # 100).
  rewrite !(PyProps.truediv_threshold 2 (2 ^ 50) _ _ PyProps.gap_area_2 Harea).
  rewrite !(PyProps.truediv_threshold 6 (2 ^ 50) _ _ PyProps.gap_area_6 Harea).
  rewrite !(PyProps.truediv_threshold 8 (2 ^ 25) _ _ PyProps.gap_length_8 Hlen).
  rewrite !(PyProps.truediv_threshold 25 (2 ^ 25) _ _ PyProps.gap_length_25
              Hlen).
  rewrite !eqb_decide, !gtb_dec.
  repeat case_decide; try reflexivity;
    repeat match goal with
           | |- context [Qlt_le_dec ?a ?b] => destruct (Qlt_le_dec a b)
           end;
    try reflexivity; exfalso; lra.
Qed.

Lemma estimate_severity_reference_witness :
  _estimate_severity (mkDetection "crack" (Some 0.65%Q) (5, 5, 20, 3))
    (1000, 1000)
  = Spec.spec_severity "crack" 0.65%Q 20 3 1000 1000.
Proof.
  apply estimate_severity_reference; vm_compute; discriminate.
Defined.

(** C4. The overall severity of [analyze] is the maximum of the
    per-finding severities under [low < medium < high]: it bounds every
    finding's severity and is the severity of some finding, or [low] when
    there is no finding; whenever some finding is high, it is high. *)
Theorem overall_severity_maximum ds image_size :
  let r := severity (analyze ds image_size) in
  Forall (fun d => Spec.sev_le (_estimate_severity d image_size) r) ds
  /\ (Exists (fun d => _estimate_severity d image_size = r) ds
      \/ (ds = [] /\ r = Low))
  /\ (Exists (fun d => _estimate_severity d image_size = High) ds -> r = High).
Proof.
  cbn [analyze severity]. unfold _aggregate_severity.
  destruct (fold_aggregate_bounds image_size ds Low) as (_ & Hall & Hatt).
  cbv zeta in Hall, Hatt.
  set (r := fold_left (aggregate_step image_size) ds Low) in *.
  split; [| split].
  - eapply Forall_impl; [exact Hall |]. intros d Hd. by apply sev_le_order.
  - destruct Hatt as [Hlow | Hex]; [| by left].
    destruct ds as [| d ds]; [by right |]. left. constructor.
    apply Forall_inv in Hall. rewrite Hlow in *.
    destruct (_estimate_severity d image_size); cbn in Hall; (reflexivity || lia).
  - intros Hex. apply Exists_exists in Hex as (d & Hin & Hd).
    rewrite Forall_forall in Hall. specialize (Hall d Hin).
    rewrite Hd in Hall. destruct r; cbn in Hall; (reflexivity || lia).
Qed.

Lemma overall_severity_maximum_witness :
  severity
    (analyze [mkDetection "crack" (Some 0.65%Q) (5, 5, 20, 3);
              mkDetection "leak" (Some 0.9%Q) (10, 10, 50, 40)] (800, 600))
  = High.
Proof.
  apply (overall_severity_maximum
           [mkDetection "crack" (Some 0.65%Q) (5, 5, 20, 3);
            mkDetection "leak" (Some 0.9%Q) (10, 10, 50, 40)] (800, 600)).
  constructor 2. constructor. vm_compute. reflexivity.
Defined.

(** C5, as stated, fails for cracks: of two cracks on a 1000 x 1000 image,
    the 100 x 40 box has the larger [area_ratio] (0.004 against 0.003) and
    yet the lower severity, because the 300 x 10 box is long enough
    ([length_ratio] 0.3) to be high. *)
Lemma crack_area_not_monotone :
  let d1 := mkDetection "crack" (Some 0.8%Q) (0, 0, 300, 10) in
  let d2 := mkDetection "crack" (Some 0.8%Q) (0, 0, 100, 40) in
  label d1 = label d2
  /\ Qle (box_area_ratio d1 (1000, 1000)) (box_area_ratio d2 (1000, 1000))
  /\ _estimate_severity d1 (1000, 1000) = High
  /\ _estimate_severity d2 (1000, 1000) = Medium
  /\ ~ Spec.sev_le (_estimate_severity d1 (1000, 1000))
                   (_estimate_severity d2 (1000, 1000)).
Proof.
  cbv zeta. repeat split; try reflexivity.
  - vm_compute. discriminate.
  - vm_compute. tauto.
Qed.

(** C5, amended. Between two observations with the same label, [crack] or
    [corrosion], the one with the greater-or-equal [area_ratio] never has
    the lower severity, provided that for cracks its [length_ratio] is
    greater or equal too. *)
Theorem severity_monotone_area d1 d2 size1 size2 :
  label d1 = label d2 ->
  label d1 = "crack" \/ label d1 = "corrosion" ->
  Qle (box_area_ratio d1 size1) (box_area_ratio d2 size2) ->
  (label d1 = "crack" ->
   Qle (box_length_ratio d1 size1) (box_length_ratio d2 size2)) ->
  Spec.sev_le (_estimate_severity d1 size1) (_estimate_severity d2 size2).
Proof.
  intros Hlbl Hkind Harea Hlen.
  unfold box_area_ratio, box_length_ratio, _estimate_severity in *.
  rewrite <- Hlbl.
  destruct (bbox d1) as [[[x1 y1] w1] h1], (bbox d2) as [[[x2 y2] w2] h2].
  destruct size1 as [iw1 ih1], size2 as [iw2 ih2].
  change (area_ratio w1 h1 iw1 ih1)
    with (Py.b64 (spec_area_ratio w1 h1 iw1 ih1)).
  change (area_ratio w2 h2 iw2 ih2)
    with (Py.b64 (spec_area_ratio w2 h2 iw2 ih2)).
  change (length_ratio w1 h1 iw1 ih1)
    with (Py.b64 (spec_length_ratio w1 h1 iw1 ih1)).
  change (length_ratio w2 h2 iw2 ih2)
    with (Py.b64 (spec_length_ratio w2 h2 iw2 ih2)).
  pose proof (fun t => PyProps.gtb_b64_mono _ _ t Harea) as Ha.
  destruct Hkind as [Hk | Hk]; rewrite Hk in *; cbn [String.eqb Ascii.eqb Bool.eqb];
    cbn match.
  - pose proof (fun t => PyProps.gtb_b64_mono _ _ t (Hlen eq_refl)) as Hl.
    destruct (Py.gtb (Py.b64 (spec_length_ratio w1 h1 iw1 ih1)) (Py.float 0.25))
      eqn:H1; [rewrite (Hl _ H1); exact I |].
    destruct (Py.gtb (Py.b64 (spec_area_ratio w1 h1 iw1 ih1)) (Py.float 0.02))
      eqn:H2; [rewrite (Ha _ H2), !orb_true_r; exact I |].
    cbn [orb].
    destruct (Py.gtb (Py.b64 (spec_length_ratio w1 h1 iw1 ih1)) (Py.float 0.08))
      eqn:H3; [| exact I].
    rewrite (Hl _ H3).
    destruct (Py.gtb (Py.b64 (spec_length_ratio w2 h2 iw2 ih2)) (Py.float 0.25)
              || Py.gtb (Py.b64 (spec_area_ratio w2 h2 iw2 ih2)) (Py.float 0.02));
      exact I.
  - destruct (Py.gtb (Py.b64 (spec_area_ratio w1 h1 iw1 ih1)) (Py.float 0.06))
      eqn:H1; [rewrite (Ha _ H1); exact I |].
    destruct (Py.gtb (Py.b64 (spec_area_ratio w1 h1 iw1 ih1)) (Py.float 0.02))
      eqn:H2; [| exact I].
    rewrite (Ha _ H2).
    destruct (Py.gtb (Py.b64 (spec_area_ratio w2 h2 iw2 ih2)) (Py.float 0.06));
      exact I.
Qed.

Lemma severity_monotone_area_witness :
  Spec.sev_le
    (_estimate_severity (mkDetection "crack" (Some 0.8%Q) (0, 0, 100, 10))
       (1000, 1000))
    (_estimate_severity (mkDetection "crack" (Some 0.9%Q) (5, 5, 300, 40))
       (1000, 1000)).
Proof.
  apply severity_monotone_area.
  - reflexivity.
  - left. reflexivity.
  - vm_compute. discriminate.
  - intros _. vm_compute. discriminate.
Defined.

(** ** Recommendations *)

(** C6, as stated, fails: a low-severity observation whose confidence is
    not below 0.75 contributes a single entry.  Here a 50 x 50 corrosion
    patch on a 1000 x 1000 image, confidence 0.9. *)
Lemma single_recommendation :
  let d := mkDetection "corrosion" (Some 0.9%Q) (0, 0, 50, 50) in
  recommendations (analyze [d] (1000, 1000))
  = ["corrosion: Document and schedule maintenance per SOP: Assess corrosion depth/area; clean and apply corrosion inhibitor; consider replacement."]
  /\ length (recommendations (analyze [d] (1000, 1000))) = 1%nat
  /\ length (recommendations (analyze [d] (1000, 1000))) <> 2%nat
  /\ length (recommendations (analyze [d] (1000, 1000))) <> 3%nat.
Proof.
  cbv zeta. repeat split; vm_compute; congruence.
Qed.

Lemma recommendations_length lbl sev d :
  length (_recommendations_for lbl sev d)
  = Spec.spec_recommendation_count sev (get_confidence d).
Proof.
  unfold _recommendations_for, Spec.spec_recommendation_count.
  rewrite ltb_dec.
  destruct (Qlt_le_dec (get_confidence d) 0.75), sev;
    rewrite ?length_app; reflexivity.
Qed.

(** C6, amended. The recommendations of [analyze] are the concatenation,
    in observation order, of each observation's entries; an observation
    contributes one entry when its severity is low and two when it is
    medium or high, plus one more when its confidence is below 0.75: between
    one and three entries in all. *)
Theorem recommendations_concat ds image_size d :
  recommendations (analyze ds image_size)
  = concat (map (fun d => _recommendations_for (label d)
                            (_estimate_severity d image_size) d) ds)
  /\ length (_recommendations_for (label d) (_estimate_severity d image_size) d)
     = Spec.spec_recommendation_count (_estimate_severity d image_size)
         (get_confidence d)
  /\ (1 <= Spec.spec_recommendation_count (_estimate_severity d image_size)
            (get_confidence d) <= 3)%nat.
Proof.
  split; [| split].
  - cbn [analyze recommendations]. rewrite fold_recs. reflexivity.
  - apply recommendations_length.
  - unfold Spec.spec_recommendation_count.
    destruct (_estimate_severity d image_size),
      (Qlt_le_dec (get_confidence d) 0.75); cbn; lia.
Qed.

(** C7. The messages emitted for an observation follow its computed
    severity: for high, the immediate-action message with the label and the
    procedure text, then the 24-hour shutdown message; for medium, the
    repair-or-patch message with the procedure text, then the weekly
    re-inspection reminder; for low, the single
    document-and-schedule-maintenance message; in every case the
    higher-resolution caveat follows exactly when the confidence is below
    0.75. *)
Theorem recommendations_follow_severity d image_size :
  exists msgs,
    _recommendations_for (label d) (_estimate_severity d image_size) d
    = msgs ++ (if Qlt_le_dec (get_confidence d) 0.75 then [caveat_msg] else [])
    /\ match _estimate_severity d image_size with
       | High =>
           exists e, SOP_DB !! label d = Some e
             /\ msgs = [label d +:+ ": Immediate action — follow SOP: " +:+ sop e;
                        "Schedule shutdown and NDT / specialist inspection within 24 hours."]
       | Medium =>
           exists e, SOP_DB !! label d = Some e
             /\ msgs = [label d +:+ ": Repair or patch and inspect; follow SOP: "
                          +:+ sop e;
                        "Monitor weekly and re-inspect with higher-fidelity sensors."]
       | Low =>
           msgs = [label d +:+ ": Document and schedule maintenance per SOP: "
                     +:+ match SOP_DB !! label d with
                         | Some e => sop e
                         | None => "None"
                         end]
       end.
Proof.
  pose proof (estimate_above_low_known d image_size) as Hknown.
  unfold _recommendations_for. rewrite ltb_dec.
  destruct (_estimate_severity d image_size) eqn:Hsev.
  - eexists. split.
    + destruct (Qlt_le_dec (get_confidence d) 0.75); [reflexivity |].
      by rewrite app_nil_r.
    + by destruct (SOP_DB !! label d).
  - destruct Hknown as [e He]; [discriminate |].
    eexists. split.
    + destruct (Qlt_le_dec (get_confidence d) 0.75); [reflexivity |].
      by rewrite app_nil_r.
    + exists e. split; [exact He |]. by rewrite He.
  - destruct Hknown as [e He]; [discriminate |].
    eexists. split.
    + destruct (Qlt_le_dec (get_confidence d) 0.75); [reflexivity |].
      by rewrite app_nil_r.
    + exists e. split; [exact He |]. by rewrite He.
Qed.

(** ** SOP mappings and summary *)

(** C8. [sop_mappings] has one entry per observation, in input order; the
    entry carries the observation's label and the table's record for it,
    or, for a label outside the table, standard ["N/A"], the generic
    procedure text and the lowest priority code ["P3"]. *)
Theorem sop_mappings_complete ds image_size :
  length (sop_mappings (analyze ds image_size)) = length ds
  /\ Forall2
       (fun d m =>
          m_label m = label d
          /\ match SOP_DB !! label d with
             | Some e =>
                 m_iso m = iso e /\ m_sop m = sop e
                 /\ m_priority m = priority e
             | None =>
                 m_iso m = "N/A" /\ m_sop m = "Refer engineering SOP."
                 /\ m_priority m = "P3"
             end)
       ds (sop_mappings (analyze ds image_size)).
Proof.
  cbn [analyze sop_mappings]. rewrite fold_mappings. cbn [acc_mappings app].
  split; [by rewrite length_map |].
  induction ds as [| d ds IH]; cbn [map]; constructor; [| exact IH].
  unfold mapping_of. cbn [m_label m_iso m_sop m_priority].
  split; [reflexivity |]. by destruct (SOP_DB !! label d).
Qed.

(** C10. The per-label counts are merged over the mapping that holds the
    total: when some observation is labelled ["total"], the summary's
    ["total"] field is the number of observations so labelled; otherwise
    it is the length of the sequence. *)
Theorem summary_total ds image_size :
  summary (analyze ds image_size) !! "total"
  = Some (if decide (0 < occurrences "total" ds)
          then occurrences "total" ds
          else Z.of_nat (length ds)).
Proof.
  cbn [analyze summary]. rewrite lookup_union, fold_counts.
  cbn [acc_counts]. rewrite lookup_empty, lookup_singleton_eq.
  case_decide; cbn; [f_equal; lia | reflexivity].
Qed.

(** ** The scenarios of section 8 *)

Example scenario_zero_findings :
  let a := analyze [] (800, 600) in
  summary a = {[ "total" := 0 ]} /\ severity a = Low
  /\ sop_mappings a = [] /\ recommendations a = [].
Proof. vm_compute. auto. Qed.

Example scenario_leak :
  let d := mkDetection "leak" (Some 0.9%Q) (10, 10, 50, 40) in
  _estimate_severity d (800, 600) = High
  /\ recommendations (analyze [d] (800, 600))
     = ["leak: Immediate action — follow SOP: Isolate line; perform pressure test; immediate repair if active leak.";
        "Schedule shutdown and NDT / specialist inspection within 24 hours."].
Proof. vm_compute. auto. Qed.

Example scenario_small_crack :
  let d := mkDetection "crack" (Some 0.65%Q) (5, 5, 20, 3) in
  _estimate_severity d (1000, 1000) = Low
  /\ recommendations (analyze [d] (1000, 1000))
     = ["crack: Document and schedule maintenance per SOP: Inspect crack length; measure propagation; schedule NDT (ultrasonic).";
        "Confidence is moderate — capture higher-resolution image for verification."].
Proof. vm_compute. auto. Qed.

Example scenario_unknown_label :
  let d := mkDetection "dent" (Some 0.8%Q) (0, 0, 10, 10) in
  _estimate_severity d (800, 600) = Low
  /\ sop_mappings (analyze [d] (800, 600))
     = [mkSopMapping "dent" "N/A" "Refer engineering SOP." "P3"]
  /\ recommendations (analyze [d] (800, 600))
     = ["dent: Document and schedule maintenance per SOP: None"].
Proof. vm_compute. auto. Qed.

End ReasonerProps.

(* ===================================================================== *)
(** * Properties of the synthetic detector *)
(* ===================================================================== *)

Module DetectorProps.

Import Random Detector Spec Aux.
Local Open Scope Z_scope.

(** ** Conversions to [int] *)

Lemma int_floor q : (0 <= q)%Q -> Py.int q = Qfloor q.
Proof.
  destruct q as [n d]. unfold Qle, Py.int, Qfloor. cbn [Qnum Qden].
  intros Hn. apply Z.quot_div_nonneg; lia.
Qed.

Lemma int_bounds q (hi : Z) :
  (0 <= q)%Q -> (q < inject_Z hi)%Q -> 0 <= Py.int q < hi.
Proof.
  intros H0 Hhi. rewrite int_floor by exact H0. split.
  - change 0 with (Qfloor (inject_Z 0)). by apply Qfloor_resp_le.
  - rewrite Zlt_Qlt. eapply Qle_lt_trans; [apply Qfloor_le | exact Hhi].
Qed.

(** A fraction of a side, truncated, is at most the side. *)
Lemma int_fraction (w : Z) (u : Q) :
  0 <= w -> (0 <= u)%Q -> (u < 1)%Q -> 0 <= Py.int (inject_Z w * u) <= w.
Proof.
  intros Hw Hu0 Hu1.
  assert (Hq : (0 <= inject_Z w)%Q) by (change 0%Q with (inject_Z 0); rewrite <- Zle_Qle; exact Hw).
  cut (0 <= Py.int (inject_Z w * u) < w + 1); [lia |].
  apply int_bounds.
  - by apply Qmult_le_0_compat.
  - rewrite inject_Z_plus. change (inject_Z 1) with 1%Q. nra.
Qed.


(** ** Hexadecimal seeds *)

Lemma all_hex_prefix n s :
  Hashlib.all_hex s = true -> Hashlib.all_hex (String.substring 0 n s) = true.
Proof.
  revert s. induction n as [| n IH]; intros [| c s] Hs; cbn in *; try done.
  apply andb_true_iff in Hs as [Hc Hs]. rewrite Hc. cbn. by apply IH.
Qed.

Lemma hex_value_total s acc :
  Hashlib.all_hex s = true -> is_Some (Hashlib.hex_value acc s).
Proof.
  revert acc. induction s as [| c s IH]; intros acc Hs; cbn in *; [eauto |].
  apply andb_true_iff in Hs as [Hc Hs].
  apply bool_decide_eq_true in Hc as [v Hv]. rewrite Hv. by apply IH.
Qed.

Lemma int16_total s :
  s <> EmptyString -> Hashlib.all_hex s = true ->
  exists z, Hashlib.int16 s = inr z.
Proof.
  intros Hne Hs. destruct (hex_value_total s 0 Hs) as [z Hz].
  exists z. unfold Hashlib.int16. rewrite Hz. by destruct s.
Qed.

Section Draws.
Context {S : Type} `{Generator S}.

Lemma returns_ret {A : Type} (x : A) (P : A -> Prop) :
  P x -> returns (S := S) (mret x) P.
Proof. intros Hx s. by exists x, s. Qed.

Lemma returns_bind {A B : Type} (m : Draw S A) (f : A -> Draw S B)
    (P : A -> Prop) (Q : B -> Prop) :
  returns m P -> (forall x, P x -> returns (f x) Q) -> returns (m ≫= f) Q.
Proof.
  intros Hm Hf s. destruct (Hm s) as (x & s' & Hx & HP).
  destruct (Hf x HP s') as (y & s'' & Hy & HQ).
  exists y, s''. split; [| exact HQ].
  unfold mbind, Draw_bind. by rewrite Hx.
Qed.

Lemma returns_uniform (a b : Q) :
  (a < b)%Q -> returns (uniform a b) (fun u => (a <= u)%Q /\ (u < b)%Q).
Proof.
  intros Hab s. unfold uniform.
  pose proof (random_range s) as [Hr0 Hr1].
  destruct (random s) as [r s']. cbn [fst] in *.
  exists (a + (b - a) * r)%Q, s'. split; [reflexivity |]. split; nra.
Qed.

Lemma returns_choice_SUPPORTED :
  returns (choice SUPPORTED) (fun lbl => lbl ∈ SUPPORTED).
Proof.
  intros s. unfold choice, SUPPORTED. cbn [length].
  pose proof (_randbelow_range 3 s ltac:(lia)) as Hi.
  change (Z.of_nat 3) with 3.
  destruct (_randbelow 3 s) as [i s']. cbn [fst] in Hi.
  destruct (Z.ltb_spec i 0) as [Hneg | _]; [lia |].
  assert (Hcases : i = 0 \/ i = 1 \/ i = 2) by lia. clear Hi.
  destruct Hcases as [-> | [-> | ->]]; cbn; eexists _, s';
    (split; [reflexivity | set_solver]).
Qed.

Lemma returns_count :
  returns (choices1 [0; 1; 2; 3] [20; 50; 20; 10]) (fun n => 0 <= n <= 3).
Proof.
  intros s. unfold choices1. cbn [length accumulate Z.add Pos.add Pos.succ
    Nat.eqb negb last Z.leb Z.compare].
  destruct (random s) as [r s']. unfold bisect.
  cbn [Nat.sub drop take count_le Nat.add].
  repeat match goal with
         | |- context [Qle_bool ?a ?b] => destruct (Qle_bool a b)
         end; cbn; eexists _, s'; (split; [reflexivity | lia]).
Qed.


(** ** Generated boxes *)

(** The two sides of a box, then its corner. *)
Lemma returns_sides (w h_img : Z) (a b a' b' : Q) :
  0 <= w -> 0 <= h_img ->
  (0 <= a)%Q -> (a < b)%Q -> (b <= 1)%Q ->
  (0 <= a')%Q -> (a' < b')%Q -> (b' <= 1)%Q ->
  returns
    (u ← uniform a b;
     v ← uniform a' b';
     mret (Py.int (inject_Z w * u), Py.int (inject_Z h_img * v)))
    (fun '(bw, bh) => 0 <= bw <= w /\ 0 <= bh <= h_img).
Proof.
  intros Hw Hh Ha Hab Hb Ha' Hab' Hb'.
  eapply returns_bind; [by apply returns_uniform |].
  intros u [Hu0 Hu1]. cbv beta.
  eapply returns_bind; [by apply returns_uniform |].
  intros v [Hv0 Hv1]. cbv beta.
  apply returns_ret. split; apply int_fraction; (lia || lra).
Qed.

Lemma returns_corner (w bw : Z) :
  0 <= bw <= w ->
  returns (uniform 0 (inject_Z (Z.max 1 (w - bw))))
    (fun ux => 0 <= Py.int ux /\ Py.int ux + bw <= w).
Proof.
  intros Hbw s.
  assert (Hpos : (0 < inject_Z (Z.max 1 (w - bw)))%Q).
  { change 0%Q with (inject_Z 0). rewrite <- Zlt_Qlt. lia. }
  destruct (returns_uniform 0 _ Hpos s) as (ux & s' & Hrun & Hux0 & Hux1).
  exists ux, s'. split; [exact Hrun |].
  pose proof (int_bounds ux _ Hux0 Hux1). lia.
Qed.

Lemma returns_detection (w h_img : Z) :
  0 <= w -> 0 <= h_img ->
  returns (draw_detection w h_img) (within_image w h_img).
Proof.
  intros Hw Hh. unfold draw_detection.
  eapply returns_bind; [apply returns_choice_SUPPORTED |].
  intros lbl _.
  eapply returns_bind; [apply (returns_uniform 0.6 0.98); lra |].
  intros c _. cbv zeta.
  eapply returns_bind with
    (P := fun '(bw, bh) => 0 <= bw <= w /\ 0 <= bh <= h_img).
  { destruct (String.eqb lbl "crack"); [| destruct (String.eqb lbl "corrosion")];
      apply returns_sides; (lia || lra). }
  intros [bw bh] [Hbw Hbh].
  eapply returns_bind; [by apply returns_corner |].
  intros ux [Hx0 Hx1]. cbv beta.
  eapply returns_bind; [by apply returns_corner |].
  intros uy [Hy0 Hy1]. cbv beta.
  apply returns_ret. unfold within_image. cbn [bbox]. lia.
Qed.

Lemma returns_loop (n : nat) (w h_img : Z) (acc : list Detection) :
  0 <= w -> 0 <= h_img ->
  Forall (within_image w h_img) acc ->
  returns (draw_loop n w h_img acc)
    (fun ds => length ds = (length acc + n)%nat
               /\ Forall (within_image w h_img) ds).
Proof.
  intros Hw Hh. revert acc.
  induction n as [| n IH]; intros acc Hacc; cbn [draw_loop].
  - apply returns_ret. split; [lia | exact Hacc].
  - eapply returns_bind; [by apply returns_detection |].
    intros d Hd. cbv beta.
    intros s.
    destruct (IH (acc ++ [d]) ltac:(apply Forall_app; split; [done | by constructor]) s)
      as (ds & s' & Hrun & Hlen & Hall).
    exists ds, s'. split; [exact Hrun |]. split; [| exact Hall].
    rewrite Hlen, length_app. cbn [length]. lia.
Qed.

End Draws.

Section Mock.
Context {S : Type} `{Generator S} `{Hashlib.Sha1}.

(** [_mock_detect] raises nothing; it returns at most three observations,
    each within the image. *)
Lemma mock_detect_returns (img : PIL.Image) :
  exists ds,
    _mock_detect img = inr ds
    /\ (length ds <= 3)%nat
    /\ Forall (within_image (Z.of_N (fst (PIL.size img)))
                 (Z.of_N (snd (PIL.size img)))) ds.
Proof.
  unfold _mock_detect.
  set (h := Hashlib.hexdigest (take 1024 (PIL.tobytes img))).
  destruct (int16_total (String.substring 0 8 h)) as [seed ->].
  { pose proof (Hashlib.hexdigest_length (take 1024 (PIL.tobytes img))) as Hlen.
    fold h in Hlen. destruct h; [discriminate | discriminate]. }
  { apply all_hex_prefix, Hashlib.hexdigest_hex. }
  destruct (PIL.size img) as [w h_img]. cbn [fst snd].
  assert (Hbody : returns
    (n ← choices1 [0; 1; 2; 3] [20; 50; 20; 10];
     draw_loop (Z.to_nat n) (Z.of_N w) (Z.of_N h_img) [])
    (fun ds => (length ds <= 3)%nat
               /\ Forall (within_image (Z.of_N w) (Z.of_N h_img)) ds)).
  { eapply returns_bind; [apply returns_count |].
    intros n Hn. cbv beta in Hn |- *. intros s.
    destruct (returns_loop (Z.to_nat n) (Z.of_N w) (Z.of_N h_img) []
                ltac:(lia) ltac:(lia) ltac:(constructor) s)
      as (ds & s' & Hrun & Hlen & Hall).
    exists ds, s'. split; [exact Hrun |]. split; [| exact Hall].
    rewrite Hlen. cbn [length]. lia. }
  destruct (Hbody (seeded seed)) as (ds & s' & Hrun & Hlen & Hall).
  exists ds. rewrite Hrun. auto.
Qed.


(** The seed, and with it the result, is read off the first 1024 pixel
    bytes and the size. *)
Lemma mock_detect_prefix (img1 img2 : PIL.Image) :
  take 1024 (PIL.tobytes img1) = take 1024 (PIL.tobytes img2) ->
  PIL.size img1 = PIL.size img2 ->
  _mock_detect img1 = _mock_detect img2.
Proof. unfold _mock_detect. by intros -> ->. Qed.

(** C1, amended. On every image, one of zero width or zero height
    included, [detect] in mock mode signals no error and returns a sequence
    of at most three observations.  The only error [detect] signals is
    [NotImplementedError], when the detector is not in mock mode; the
    constructor refuses such a detector with the same error. *)
Theorem detect_raises_only_not_implemented (self : t) (img : PIL.Image)
    (path : option string) (mock : bool) :
  (exists ds,
     (length ds <= 3)%nat
     /\ detect self img
        = if use_mock self then inr ds
          else inl (Py.NotImplementedError
                      "Model-backed detection not implemented."))
  /\ __init__ path mock
     = if mock then inr (mkDetector path true None)
       else inl (Py.NotImplementedError
                   "Integrate a real model here (YOLO/OpenCV).").
Proof.
  split.
  - destruct (mock_detect_returns img) as (ds & Hrun & Hlen & _).
    exists ds. split; [exact Hlen |]. unfold detect.
    destruct (use_mock self); [exact Hrun | reflexivity].
  - unfold __init__, load_model. by destruct mock.
Qed.

(** C9. Every image is accepted, and every box generated for it satisfies
    [0 <= x], [0 <= y], [x + width <= image_width] and
    [y + height <= image_height]. *)
Theorem generated_boxes_within_image (path : option string)
    (mdl : option unit) (img : PIL.Image) :
  exists ds,
    detect (mkDetector path true mdl) img = inr ds
    /\ Forall
         (fun d =>
            let '(x, y, bw, bh) := bbox d in
            0 <= x /\ 0 <= y
            /\ x + bw <= Z.of_N (fst (PIL.size img))
            /\ y + bh <= Z.of_N (snd (PIL.size img)))
         ds.
Proof.
  destruct (mock_detect_returns img) as (ds & Hrun & _ & Hall).
  exists ds. split; [exact Hrun |].
  eapply Forall_impl; [exact Hall |].
  intros d. unfold within_image. destruct (bbox d) as [[[x y] bw] bh]. lia.
Qed.

End Mock.

(** ** Runs on the executable instance *)

(** C1, as stated, fails: an image of width zero is not rejected.  On the
    executable instance, a 0 x 600 image (it has no pixel bytes) yields one
    observation, whose box has width zero. *)
Lemma zero_width_image_accepted :
  @detect Z Reference.generator Reference.sha1 (mkDetector None true None)
    (PIL.mkImage [] (0%N, 600%N) "RGB" None)
  = inr [mkDetection "leak" (Some 0.73%Q) (0, 517, 0, 71)].
Proof. vm_compute. reflexivity. Qed.

End DetectorProps.

(* ===================================================================== *)
(** * The detector and the state of the process *)
(* ===================================================================== *)

Module ProcessProps.

Import Random Detector Spec Aux.
Local Open Scope Z_scope.

Section Simulation.
Context {S : Type} `{Generator S} `{Hashlib.Sha1}.

Lemma simulates_call {A : Type} (rng : positive) (m : Draw S A) :
  simulates rng (Process.call rng m) m.
Proof.
  intros w s Hs. unfold Process.call. rewrite Hs.
  by destruct (m s) as [e | [x s']].
Qed.

Lemma simulates_ret {A : Type} (rng : positive) (x : A) :
  simulates (S := S) rng (mret x) (mret x).
Proof.
  intros w s Hs. unfold mret, Process.Proc_ret, Draw_ret.
  by rewrite insert_id.
Qed.

Lemma simulates_bind {A B : Type} (rng : positive)
    (p : Process.Proc S A) (m : Draw S A)
    (f : A -> Process.Proc S B) (g : A -> Draw S B) :
  simulates rng p m -> (forall x, simulates rng (f x) (g x)) ->
  simulates rng (p ≫= f) (m ≫= g).
Proof.
  intros Hp Hf w s Hs.
  unfold mbind, Process.Proc_bind, Draw_bind. rewrite (Hp w s Hs).
  destruct (m s) as [e | [x s']]; [reflexivity |].
  rewrite (Hf x (<[rng := s']> w) s') by apply lookup_insert_eq.
  destruct (g x s') as [e | [y s'']]; [reflexivity |].
  by rewrite insert_insert_eq.
Qed.

Lemma simulates_detection (rng : positive) (w h_img : Z) :
  simulates rng (Process.draw_detection rng w h_img)
    (Detector.draw_detection w h_img).
Proof.
  unfold Process.draw_detection, Detector.draw_detection.
  apply simulates_bind; [apply simulates_call |]. intros lbl.
  apply simulates_bind; [apply simulates_call |]. intros c. cbv zeta.
  apply simulates_bind.
  { destruct (String.eqb lbl "crack"); [| destruct (String.eqb lbl "corrosion")];
      (apply simulates_bind; [apply simulates_call |]; intros u;
       apply simulates_bind; [apply simulates_call |]; intros v;
       apply simulates_ret). }
  intros [bw bh].
  apply simulates_bind; [apply simulates_call |]. intros ux.
  apply simulates_bind; [apply simulates_call |]. intros uy.
  apply simulates_ret.
Qed.

Lemma simulates_loop (n : nat) (rng : positive) (w h_img : Z)
    (acc : list Detection) :
  simulates rng (Process.draw_loop n rng w h_img acc)
    (Detector.draw_loop n w h_img acc).
Proof.
  revert acc. induction n as [| n IH]; intros acc;
    cbn [Process.draw_loop Detector.draw_loop].
  - apply simulates_ret.
  - apply simulates_bind; [apply simulates_detection |]. intros d. apply IH.
Qed.

Lemma run_new_Random {A : Type} (seed : Z)
    (f : positive -> Process.Proc S A) (w : gmap positive S) :
  (Process.new_Random seed ≫= f) w
  = f (fresh (dom w)) (<[fresh (dom w) := seeded seed]> w).
Proof. reflexivity. Qed.

(** In whatever store it starts, the process-level [_mock_detect] returns
    what the method-level one computes, and the only change to the store
    is the instance it has allocated. *)
Lemma process_mock_detect (img : PIL.Image) (w : gmap positive S) :
  match Detector._mock_detect img with
  | inl e => Process._mock_detect img w = Process.Raised e
  | inr ds =>
      exists s', Process._mock_detect img w
                 = Process.Returned ds (<[fresh (dom w) := s']> w)
  end.
Proof.
  unfold Process._mock_detect, Detector._mock_detect.
  destruct (Hashlib.int16 _) as [e | seed]; [reflexivity |].
  destruct (PIL.size img) as [iw ih].
  rewrite run_new_Random.
  set (rng := fresh (dom w)).
  pose proof (simulates_bind rng _ _ _ _
    (simulates_call rng (choices1 [0; 1; 2; 3] [20; 50; 20; 10]))
    (fun n => simulates_loop (Z.to_nat n) rng (Z.of_N iw) (Z.of_N ih) [])
    (<[rng := seeded seed]> w) (seeded seed) (lookup_insert_eq _ _ _)) as Hrun.
  rewrite Hrun.
  destruct ((choices1 [0; 1; 2; 3] [20; 50; 20; 10] ≫= _) (seeded seed))
    as [e | [ds s']]; [reflexivity |].
  exists s'. by rewrite insert_insert_eq.
Qed.

(** C2. Two invocations of [detect] on images with the same pixel bytes
    and the same size return the same observation sequence, from whichever
    mock-mode detectors and in whatever states of the process they start
    (so whatever was called before, in whatever order), and neither
    changes any generator the process already held. *)
Theorem detect_deterministic (self1 self2 : Detector.t)
    (img1 img2 : PIL.Image) (w1 w2 : Process.World S) :
  use_mock self1 = true -> use_mock self2 = true ->
  PIL.tobytes img1 = PIL.tobytes img2 ->
  PIL.size img1 = PIL.size img2 ->
  exists ds w1' w2',
    Process.detect self1 img1 w1 = Process.Returned ds w1'
    /\ Process.detect self2 img2 w2 = Process.Returned ds w2'
    /\ w1 ⊆ w1' /\ w2 ⊆ w2'.
Proof.
  intros Hm1 Hm2 Hbytes Hsize. unfold Process.detect. rewrite Hm1, Hm2.
  pose proof (process_mock_detect img1 w1) as H1.
  pose proof (process_mock_detect img2 w2) as H2.
  rewrite <- (DetectorProps.mock_detect_prefix img1 img2) in H2
    by (by rewrite ?Hbytes).
  destruct (DetectorProps.mock_detect_returns img1) as (ds & Hds & _).
  rewrite Hds in H1, H2.
  destruct H1 as [s1 H1], H2 as [s2 H2].
  exists ds, (<[fresh (dom w1) := s1]> w1), (<[fresh (dom w2) := s2]> w2).
  repeat split; try assumption;
    apply insert_subseteq, not_elem_of_dom, is_fresh.
Qed.

End Simulation.

Lemma detect_deterministic_witness :
  exists ds w1' w2',
    @Process.detect Z Reference.generator Reference.sha1
      (mkDetector None true None)
      (PIL.mkImage [Byte.x01; Byte.x02; Byte.x03; Byte.x01; Byte.x02; Byte.x03]
         (2%N, 1%N) "RGB" None)
      ∅
    = Process.Returned ds w1'
    /\ @Process.detect Z Reference.generator Reference.sha1
         (mkDetector (Some "weights.pt") true None)
         (PIL.mkImage
            [Byte.x01; Byte.x02; Byte.x03; Byte.x01; Byte.x02; Byte.x03]
            (2%N, 1%N) "HSV" (Some "PNG"))
         {[ 1%positive := 12345; 2%positive := 2024 ]}
       = Process.Returned ds w2'
    /\ (∅ : Process.World Z) ⊆ w1'
    /\ ({[ 1%positive := 12345; 2%positive := 2024 ]} : Process.World Z) ⊆ w2'.
Proof.
  apply detect_deterministic; reflexivity.
Defined.

End ProcessProps.

(* ===================================================================== *)
(** * Further properties of the severity reasoner *)
(* ===================================================================== *)

Module ReasonerLaws.

Import Reasoner Spec Aux.
Local Open Scope Z_scope.

(** ** Summary *)

(** X1. For a label other than ["total"], the summary holds the number of
    observations with that label, and no key at all when there is none. *)
Theorem summary_label_count ds image_size (lbl : string) :
  lbl <> "total" ->
  summary (analyze ds image_size) !! lbl
  = if decide (0 < occurrences lbl ds) then Some (occurrences lbl ds)
    else None.
Proof.
  intros Hne. cbn [analyze summary].
  rewrite lookup_union, ReasonerProps.fold_counts. cbn [acc_counts].
  rewrite lookup_empty, lookup_singleton_ne by done.
  case_decide; cbn; [f_equal; lia | reflexivity].
Qed.

Lemma summary_label_count_witness :
  summary
    (analyze [mkDetection "leak" (Some 0.9%Q) (1, 1, 5, 5);
              mkDetection "crack" (Some 0.8%Q) (0, 0, 9, 2);
              mkDetection "leak" (Some 0.7%Q) (3, 3, 4, 4)] (100, 100))
    !! "leak"
  = Some 2.
Proof.
  apply (summary_label_count
           [mkDetection "leak" (Some 0.9%Q) (1, 1, 5, 5);
            mkDetection "crack" (Some 0.8%Q) (0, 0, 9, 2);
            mkDetection "leak" (Some 0.7%Q) (3, 3, 4, 4)] (100, 100) "leak").
  discriminate.
Defined.

Lemma sum_counts_comm (m : gmap string Z) :
  forall (j1 j2 : string) (z1 z2 y : Z),
    j1 <> j2 -> m !! j1 = Some z1 -> m !! j2 = Some z2 ->
    z1 + (z2 + y) = z2 + (z1 + y).
Proof. intros. lia. Qed.

Lemma sum_counts_insert (m : gmap string Z) k v :
  sum_counts (<[k := v]> m) = v + sum_counts m - default 0 (m !! k).
Proof.
  unfold sum_counts. destruct (m !! k) as [v0 |] eqn:Hk; cbn [default]; unfold id.
  - rewrite <- insert_delete_eq.
    rewrite map_fold_insert_L;
      [| apply sum_counts_comm | apply lookup_delete_eq].
    rewrite (map_fold_delete_L _ _ k v0 m);
      [| apply sum_counts_comm | exact Hk].
    lia.
  - rewrite map_fold_insert_L; [| apply sum_counts_comm | exact Hk]. lia.
Qed.

Lemma sum_counts_delete (m : gmap string Z) k :
  sum_counts (delete k m) = sum_counts m - default 0 (m !! k).
Proof.
  unfold sum_counts. destruct (m !! k) as [v0 |] eqn:Hk; cbn [default]; unfold id.
  - rewrite (map_fold_delete_L _ _ k v0 m);
      [| apply sum_counts_comm | exact Hk].
    lia.
  - rewrite delete_id by exact Hk. lia.
Qed.

Lemma fold_sum_counts image_size ds a :
  sum_counts (acc_counts (fold_left (analyze_step image_size) ds a))
  = sum_counts (acc_counts a) + Z.of_nat (length ds).
Proof.
  revert a. induction ds as [| d ds IH]; intros a; cbn [fold_left length].
  - lia.
  - rewrite IH. cbn [analyze_step acc_counts]. rewrite sum_counts_insert. lia.
Qed.

(** X2. Leaving the key ["total"] aside, the counts of the summary add up
    to the number of observations whose label is not ["total"]. *)
Theorem summary_counts_add_up ds image_size :
  sum_counts (delete "total" (summary (analyze ds image_size)))
  = Z.of_nat (length ds) - occurrences "total" ds.
Proof.
  cbn [analyze summary].
  rewrite delete_union, delete_singleton_eq, (right_id_L ∅ (∪)).
  rewrite sum_counts_delete, fold_sum_counts, ReasonerProps.fold_counts.
  cbn [acc_counts]. rewrite lookup_empty.
  pose proof (ReasonerProps.occurrences_nonneg "total" ds).
  unfold sum_counts. rewrite map_fold_empty.
  case_decide; cbn; lia.
Qed.


(** ** Composition *)

Lemma order_inj (a b : Severity) : order a = order b -> a = b.
Proof. destruct a, b; cbn; (reflexivity || lia). Qed.

Lemma aggregate_step_order image_size worst d :
  order (aggregate_step image_size worst d)
  = Z.max (order worst) (order (_estimate_severity d image_size)).
Proof.
  unfold aggregate_step.
  destruct (Z.gtb_spec (order (_estimate_severity d image_size)) (order worst));
    lia.
Qed.

Lemma fold_aggregate_order image_size ds worst :
  order (fold_left (aggregate_step image_size) ds worst)
  = Z.max (order worst) (order (fold_left (aggregate_step image_size) ds Low)).
Proof.
  revert worst. induction ds as [| d ds IH]; intros worst; cbn [fold_left].
  - cbn. destruct worst; reflexivity.
  - rewrite (IH (aggregate_step image_size worst d)),
      (IH (aggregate_step image_size Low d)), !aggregate_step_order.
    assert (0 <= order (_estimate_severity d image_size))
      by (destruct (_estimate_severity d image_size); cbn; lia).
    cbn [order]. lia.
Qed.

(** X3. [analyze] composes over concatenation: the mappings and the
    recommendations of [ds1 ++ ds2] are those of [ds1] followed by those of
    [ds2], and the overall severity is the greater of the two. *)
Theorem analyze_app ds1 ds2 image_size :
  sop_mappings (analyze (ds1 ++ ds2) image_size)
  = sop_mappings (analyze ds1 image_size)
    ++ sop_mappings (analyze ds2 image_size)
  /\ recommendations (analyze (ds1 ++ ds2) image_size)
     = recommendations (analyze ds1 image_size)
       ++ recommendations (analyze ds2 image_size)
  /\ order (severity (analyze (ds1 ++ ds2) image_size))
     = Z.max (order (severity (analyze ds1 image_size)))
             (order (severity (analyze ds2 image_size))).
Proof.
  cbn [analyze sop_mappings recommendations severity].
  rewrite !ReasonerProps.fold_mappings, !ReasonerProps.fold_recs.
  cbn [acc_mappings acc_recs app]. unfold _aggregate_severity.
  rewrite fold_left_app, map_app, map_app, concat_app.
  repeat split. apply fold_aggregate_order.
Qed.

Lemma aggregate_step_comm image_size worst d1 d2 :
  aggregate_step image_size (aggregate_step image_size worst d1) d2
  = aggregate_step image_size (aggregate_step image_size worst d2) d1.
Proof. apply order_inj. rewrite !aggregate_step_order. lia. Qed.

Lemma fold_aggregate_perm image_size ds ds' :
  Permutation ds ds' ->
  forall worst,
    fold_left (aggregate_step image_size) ds worst
    = fold_left (aggregate_step image_size) ds' worst.
Proof.
  induction 1 as [| d ds ds' _ IH | d1 d2 ds | ds ds' ds'' _ IH1 _ IH2];
    intros worst; cbn [fold_left].
  - reflexivity.
  - apply IH.
  - by rewrite aggregate_step_comm.
  - by rewrite IH1.
Qed.

Lemma occurrences_perm lbl ds ds' :
  Permutation ds ds' -> occurrences lbl ds = occurrences lbl ds'.
Proof. intros Hp. unfold occurrences. by rewrite Hp. Qed.

(** X4. The order of the observations does not matter to the overall
    severity nor to the summary. *)
Theorem analyze_permutation ds ds' image_size :
  Permutation ds ds' ->
  severity (analyze ds image_size) = severity (analyze ds' image_size)
  /\ summary (analyze ds image_size) = summary (analyze ds' image_size).
Proof.
  intros Hp. cbn [analyze severity summary]. split.
  - by apply fold_aggregate_perm.
  - apply map_eq. intros lbl.
    rewrite !lookup_union, !ReasonerProps.fold_counts.
    rewrite (occurrences_perm lbl ds ds' Hp), (Permutation_length Hp).
    reflexivity.
Qed.

Lemma analyze_permutation_witness :
  let d1 := mkDetection "leak" (Some 0.9%Q) (1, 1, 5, 5) in
  let d2 := mkDetection "crack" (Some 0.8%Q) (0, 0, 9, 2) in
  severity (analyze [d1; d2] (100, 100)) = severity (analyze [d2; d1] (100, 100))
  /\ summary (analyze [d1; d2] (100, 100))
     = summary (analyze [d2; d1] (100, 100)).
Proof.
  cbv zeta. apply analyze_permutation. apply perm_swap.
Defined.


(** ** Recommendations *)

(** X5. [analyze] gives at least one and at most three recommendations per
    observation: between [n] and [3 * n] for [n] observations, so none
    exactly when there is no observation. *)
Theorem recommendations_count_bounds ds image_size :
  (length ds <= length (recommendations (analyze ds image_size))
   <= 3 * length ds)%nat.
Proof.
  cbn [analyze recommendations]. rewrite ReasonerProps.fold_recs.
  cbn [acc_recs app].
  induction ds as [| d ds IH]; cbn [map concat length]; [lia |].
  rewrite length_app. unfold recs_of at 1 3.
  rewrite ReasonerProps.recommendations_length.
  unfold spec_recommendation_count.
  destruct (_estimate_severity d image_size),
    (Qlt_le_dec (get_confidence d) 0.75); cbn; lia.
Qed.

Lemma has_colon_app a b :
  has_colon (a +:+ b) = has_colon a || has_colon b.
Proof.
  induction a as [| c a IH]; [reflexivity |].
  change (String c a +:+ b) with (String c (a +:+ b)).
  cbn [has_colon]. rewrite IH. by rewrite orb_assoc.
Qed.

(** The label-specific message of an observation has a colon in it; the
    shutdown message has none. *)
Lemma shutdown_only_for_high lbl sev d :
  shutdown_msg ∈ _recommendations_for lbl sev d -> sev = High.
Proof.
  unfold _recommendations_for.
  set (text := Py.fmt (sop <$> SOP_DB !! lbl)).
  assert (Hcolon : forall mid,
    has_colon mid = true -> lbl +:+ mid +:+ text <> shutdown_msg).
  { intros mid Hmid Heq.
    apply (f_equal has_colon) in Heq.
    rewrite !has_colon_app, Hmid, orb_true_r in Heq.
    vm_compute in Heq. discriminate. }
  intros Hin.
  assert (Hin' : shutdown_msg ∈
    match sev with
    | High => [lbl +:+ ": Immediate action — follow SOP: " +:+ text; shutdown_msg]
    | Medium => [lbl +:+ ": Repair or patch and inspect; follow SOP: " +:+ text;
                 monitor_msg]
    | Low => [lbl +:+ ": Document and schedule maintenance per SOP: " +:+ text]
    end ++ [caveat_msg]).
  { destruct (Py.ltb (get_confidence d) 0.75); [exact Hin |].
    apply elem_of_app. by left. }
  clear Hin. destruct sev; [| | reflexivity]; exfalso;
    repeat (apply elem_of_cons in Hin' as [Heq | Hin']);
    try (apply elem_of_nil in Hin'; exact Hin');
    try discriminate Heq;
    symmetry in Heq; revert Heq; by apply Hcolon.
Qed.

(** X6. The shutdown message is among the recommendations exactly when the
    overall severity is high. *)
Theorem shutdown_iff_high ds image_size :
  shutdown_msg ∈ recommendations (analyze ds image_size)
  <-> severity (analyze ds image_size) = High.
Proof.
  destruct (ReasonerProps.fold_aggregate_bounds image_size ds Low)
    as (_ & Hall & Hatt).
  cbv zeta in Hall, Hatt.
  cbn [analyze recommendations severity]. unfold _aggregate_severity.
  rewrite ReasonerProps.fold_recs. cbn [acc_recs app].
  set (r := fold_left (aggregate_step image_size) ds Low) in *.
  split.
  - intros Hin. apply list_elem_of_In, in_concat in Hin as (recs & Hrecs & Hin).
    apply in_map_iff in Hrecs as (d & <- & Hd).
    apply list_elem_of_In, shutdown_only_for_high in Hin.
    apply list_elem_of_In in Hd.
    rewrite Forall_forall in Hall. specialize (Hall d Hd).
    rewrite Hin in Hall. destruct r; cbn in Hall; (reflexivity || lia).
  - intros Hr. destruct Hatt as [Hlow | Hex]; [congruence |].
    apply Exists_exists in Hex as (d & Hd & Hsev).
    apply list_elem_of_In, in_concat.
    exists (recs_of image_size d).
    split; [by apply in_map, list_elem_of_In |].
    apply list_elem_of_In. unfold recs_of, _recommendations_for.
    rewrite Hsev, Hr.
    destruct (Py.ltb (get_confidence d) 0.75); set_solver.
Qed.


(** ** Edge cases *)

(** X7. An observation whose label is not in [SOP_DB] is low; its mapping
    carries the default procedure text ["Refer engineering SOP."], whereas
    its recommendation message, which reads the table without a default,
    ends in ["None"]. *)
Theorem unknown_label_texts d image_size others :
  SOP_DB !! label d = None ->
  _estimate_severity d image_size = Low
  /\ sop_mappings (analyze (d :: others) image_size) !! 0%nat
     = Some (mkSopMapping (label d) "N/A" "Refer engineering SOP." "P3")
  /\ recommendations (analyze (d :: others) image_size) !! 0%nat
     = Some (label d +:+ ": Document and schedule maintenance per SOP: "
               +:+ "None").
Proof.
  intros Hnone.
  assert (Hlow : _estimate_severity d image_size = Low).
  { destruct (_estimate_severity d image_size) eqn:Hsev; [reflexivity | |];
      destruct (ReasonerProps.estimate_above_low_known d image_size) as [e He];
      congruence. }
  split; [exact Hlow |].
  cbn [analyze sop_mappings recommendations].
  rewrite ReasonerProps.fold_mappings, ReasonerProps.fold_recs.
  cbn [acc_mappings acc_recs app map concat]. split.
  - unfold mapping_of. rewrite Hnone. reflexivity.
  - unfold recs_of at 1. unfold _recommendations_for. rewrite Hlow, Hnone.
    destruct (Py.ltb (get_confidence d) 0.75); reflexivity.
Qed.

Lemma unknown_label_texts_witness :
  recommendations
    (analyze [mkDetection "dent" (Some 0.8%Q) (0, 0, 10, 10)] (800, 600))
    !! 0%nat
  = Some "dent: Document and schedule maintenance per SOP: None".
Proof.
  apply (unknown_label_texts (mkDetection "dent" (Some 0.8%Q) (0, 0, 10, 10))
           (800, 600) []).
  vm_compute. reflexivity.
Defined.

(** X8. One leak among the observations is enough for the overall severity
    to be medium at least. *)
Theorem leak_never_low ds image_size :
  Exists (fun d => label d = "leak") ds ->
  severity (analyze ds image_size) <> Low.
Proof.
  intros Hex. apply Exists_exists in Hex as (d & Hd & Hlbl).
  destruct (ReasonerProps.fold_aggregate_bounds image_size ds Low)
    as (_ & Hall & _).
  cbv zeta in Hall. rewrite Forall_forall in Hall. specialize (Hall d Hd).
  cbn [analyze severity]. unfold _aggregate_severity. intros Hlow.
  rewrite Hlow in Hall. revert Hall.
  unfold _estimate_severity. rewrite Hlbl.
  destruct (bbox d) as [[[x y] w] h], image_size as [img_w img_h].
  cbn [String.eqb Ascii.eqb Bool.eqb].
  destruct (Py.gtb (get_confidence d) 0.7); cbn; lia.
Qed.

Lemma leak_never_low_witness :
  severity
    (analyze [mkDetection "crack" (Some 0.9%Q) (0, 0, 9, 2);
              mkDetection "leak" (Some 0.61%Q) (1, 1, 5, 5)] (1000, 1000))
  <> Low.
Proof.
  apply leak_never_low. constructor 2. constructor. reflexivity.
Defined.

(** X9. When the key ["confidence"] is missing, the confidence counts as 0:
    a leak is medium, and the recommendations of the observation end with
    the moderate-confidence caveat whatever its label. *)
Theorem missing_confidence d image_size :
  confidence d = None ->
  (label d = "leak" -> _estimate_severity d image_size = Medium)
  /\ last (_recommendations_for (label d) (_estimate_severity d image_size) d)
     = Some caveat_msg.
Proof.
  intros Hnone. split.
  - intros Hlbl. unfold _estimate_severity, get_confidence.
    rewrite Hlbl, Hnone.
    by destruct (bbox d) as [[[x y] w] h], image_size as [img_w img_h].
  - unfold _recommendations_for, get_confidence. rewrite Hnone.
    cbn [default]. change (Py.ltb (id 0%Q) 0.75) with true. cbv iota.
    apply last_snoc.
Qed.

Lemma missing_confidence_witness :
  let d := mkDetection "leak" None (10, 10, 50, 40) in
  (label d = "leak" -> _estimate_severity d (800, 600) = Medium)
  /\ last (_recommendations_for (label d) (_estimate_severity d (800, 600)) d)
     = Some caveat_msg.
Proof.
  cbv zeta. apply missing_confidence. reflexivity.
Defined.


(** ** Image size *)

(** X10. On an image size of zero area, such as the default [(0, 0)], the
    area denominator is clamped to 1: every crack and every corrosion
    patch whose box has sides of at least one pixel is high. *)
Theorem zero_area_size_high lbl conf x y w h img_w img_h :
  img_w = 0 \/ img_h = 0 ->
  lbl = "crack" \/ lbl = "corrosion" ->
  1 <= w -> 1 <= h ->
  _estimate_severity (mkDetection lbl conf (x, y, w, h)) (img_w, img_h) = High.
Proof.
  intros Hzero Hlbl Hw Hh.
  assert (Harea : forall t, Py.gtb (Py.b64 1) t = true ->
                            Py.gtb (area_ratio w h img_w img_h) t = true).
  { intros t. unfold area_ratio, Py.truediv.
    replace (img_w * img_h) with 0 by (destruct Hzero; subst; lia).
    change (Z.max 1 0) with (Zpos 1). apply PyProps.gtb_b64_mono.
    rewrite <- Qmake_Qdiv. unfold Qle. cbn [Qnum Qden]. nia. }
  unfold _estimate_severity. cbn [label bbox].
  destruct Hlbl as [-> | ->]; cbn [String.eqb Ascii.eqb Bool.eqb]; cbv iota.
  - rewrite (Harea (Py.float 0.02)) by (vm_compute; reflexivity).
    by rewrite orb_true_r.
  - by rewrite (Harea (Py.float 0.06)) by (vm_compute; reflexivity).
Qed.

Lemma zero_area_size_high_witness :
  _estimate_severity (mkDetection "corrosion" (Some 0.9%Q) (3, 4, 1, 1)) (0, 0)
  = High.
Proof.
  apply zero_area_size_high; [left; reflexivity | right; reflexivity | lia | lia].
Defined.

(** X11. The severity does not depend on the resolution: scaling the box
    and a non-degenerate image size by the same factor [k >= 1] leaves it
    unchanged. *)
Theorem severity_scale_invariant lbl conf x y w h img_w img_h k :
  1 <= k -> 1 <= img_w -> 1 <= img_h ->
  _estimate_severity (mkDetection lbl conf (k * x, k * y, k * w, k * h))
    (k * img_w, k * img_h)
  = _estimate_severity (mkDetection lbl conf (x, y, w, h)) (img_w, img_h).
Proof.
  intros Hk Hiw Hih.
  assert (Harea : forall t,
    Py.gtb (area_ratio (k * w) (k * h) (k * img_w) (k * img_h)) t
    = Py.gtb (area_ratio w h img_w img_h) t).
  { intros t. unfold area_ratio, Py.truediv.
    apply PyProps.gtb_comp, PyProps.b64_comp.
    replace (Z.max 1 (k * img_w * (k * img_h)))
      with (k * k * (img_w * img_h)) by nia.
    replace (Z.max 1 (img_w * img_h)) with (img_w * img_h) by nia.
    replace (k * w * (k * h)) with (k * k * (w * h)) by ring.
    apply PyProps.quotient_scale; nia. }
  assert (Hlen : forall t,
    Py.gtb (length_ratio (k * w) (k * h) (k * img_w) (k * img_h)) t
    = Py.gtb (length_ratio w h img_w img_h) t).
  { intros t. unfold length_ratio, Py.truediv.
    apply PyProps.gtb_comp, PyProps.b64_comp.
    replace (Z.max (k * w) (k * h)) with (k * Z.max w h) by nia.
    replace (Z.max 1 (Z.max (k * img_w) (k * img_h)))
      with (k * Z.max img_w img_h) by nia.
    replace (Z.max 1 (Z.max img_w img_h)) with (Z.max img_w img_h) by lia.
    apply PyProps.quotient_scale; lia. }
  unfold _estimate_severity. cbn [label bbox]. unfold get_confidence.
  cbn [confidence].
  by rewrite !Harea, !Hlen.
Qed.

Lemma severity_scale_invariant_witness :
  _estimate_severity (mkDetection "crack" (Some 0.8%Q)
                        (3 * 10, 3 * 20, 3 * 100, 3 * 10)) (3 * 800, 3 * 600)
  = _estimate_severity (mkDetection "crack" (Some 0.8%Q) (10, 20, 100, 10))
      (800, 600).
Proof.
  apply severity_scale_invariant; lia.
Defined.

End ReasonerLaws.

(* ===================================================================== *)
(** * Further properties of the synthetic detector *)
(* ===================================================================== *)

Module DetectorLaws.

Import Random Detector Spec Aux.
Local Open Scope Z_scope.

(** ** The seed *)

Lemma hex_digit_range c d : Hashlib.hex_digit c = Some d -> 0 <= d < 16.
Proof.
  unfold Hashlib.hex_digit.
  repeat match goal with
         | |- context [if ?b then _ else _] => destruct b eqn:?
         end; intros [= <-];
    repeat match goal with
           | H : (_ && _) = true |- _ => apply andb_true_iff in H as [? ?]
           end; lia.
Qed.

Lemma hex_value_range s acc z :
  Hashlib.hex_value acc s = Some z ->
  acc * 16 ^ Z.of_nat (String.length s) <= z
  < (acc + 1) * 16 ^ Z.of_nat (String.length s).
Proof.
  revert acc. induction s as [| c s IH]; intros acc; cbn [Hashlib.hex_value].
  - intros [= <-]. cbn. lia.
  - destruct (Hashlib.hex_digit c) as [d |] eqn:Hd; [| discriminate].
    intros Hz. apply IH in Hz. apply hex_digit_range in Hd.
    cbn [String.length]. rewrite Nat2Z.inj_succ, Z.pow_succ_r by lia.
    assert (0 < 16 ^ Z.of_nat (String.length s)) by (apply Z.pow_pos_nonneg; lia).
    nia.
Qed.

Lemma substring_length_le n s :
  (String.length (String.substring 0 n s) <= n)%nat.
Proof.
  revert s. induction n as [| n IH]; intros [| c s]; cbn; try lia.
  specialize (IH s). lia.
Qed.

(** X12. The seed read off the digest, [int(h[:8], 16)], is a 32-bit
    value: whenever the conversion succeeds, [0 <= seed < 2 ** 32]. *)
Theorem seed_is_32_bit (h : string) (seed : Z) :
  Hashlib.int16 (String.substring 0 8 h) = inr seed ->
  0 <= seed < 2 ^ 32.
Proof.
  unfold Hashlib.int16.
  pose proof (substring_length_le 8 h) as Hlen.
  destruct (String.substring 0 8 h) as [| c s] eqn:Hs; [discriminate |].
  destruct (Hashlib.hex_value 0 (String c s)) as [z |] eqn:Hz; [| discriminate].
  intros [= <-]. apply hex_value_range in Hz.
  assert (16 ^ Z.of_nat (String.length (String c s)) <= 16 ^ 8)
    by (apply Z.pow_le_mono_r; lia).
  change (2 ^ 32) with (16 ^ 8). lia.
Qed.

Lemma seed_is_32_bit_witness : 0 <= 3661210606 < 2 ^ 32.
Proof.
  apply (seed_is_32_bit "da39a3ee5e6b4b0d3255bfef95601890afd80709").
  vm_compute. reflexivity.
Defined.


(** ** Rounding and truncation *)

Lemma round2_confidence (c : Q) :
  (0.6 <= c)%Q -> (c < 0.98)%Q ->
  (0.6 <= Py.round2 c)%Q /\ (Py.round2 c <= 0.98)%Q.
Proof.
  intros Hlo Hhi. unfold Py.round2.
  destruct (PyProps.round_half_even_bounds (c * 100) 60 98) as [H60 H98].
  { change (inject_Z 60) with 60%Q. lra. }
  { change (inject_Z 98) with 98%Q. lra. }
  set (z := Py.round_half_even (c * 100)) in *.
  change 100%Q with (inject_Z 100). split.
  - rewrite <- Qmake_Qdiv. unfold Qle. cbn [Qnum Qden]. lia.
  - rewrite <- Qmake_Qdiv. unfold Qle. cbn [Qnum Qden]. lia.
Qed.

Lemma int_side_within (side : Z) (u a b : Q) (lo hi : Z) :
  0 <= side -> (0 <= a)%Q -> (a <= u)%Q -> (u < b)%Q ->
  (inject_Z lo <= 100 * a)%Q -> (100 * b <= inject_Z hi)%Q ->
  side_within side (Py.int (inject_Z side * u)) lo hi.
Proof.
  intros Hside Ha Hau Hub Hlo Hhi.
  assert (HS : (0 <= inject_Z side)%Q)
    by (change 0%Q with (inject_Z 0); rewrite <- Zle_Qle; exact Hside).
  assert (Hq : (0 <= inject_Z side * u)%Q) by nra.
  rewrite DetectorProps.int_floor by exact Hq.
  pose proof (Qfloor_le (inject_Z side * u)) as Hfl.
  pose proof (Qlt_floor (inject_Z side * u)) as Hfu.
  set (f := Qfloor (inject_Z side * u)) in *.
  rewrite inject_Z_plus in Hfu. change (inject_Z 1) with 1%Q in Hfu.
  assert (H1 : (0 <= (100 * a - inject_Z lo) * inject_Z side)%Q)
    by (apply Qmult_le_0_compat; lra).
  assert (H2 : (0 <= (u - a) * inject_Z side)%Q)
    by (apply Qmult_le_0_compat; lra).
  assert (H3 : (0 <= (b - u) * inject_Z side)%Q)
    by (apply Qmult_le_0_compat; lra).
  assert (H4 : (0 <= (inject_Z hi - 100 * b) * inject_Z side)%Q)
    by (apply Qmult_le_0_compat; lra).
  split.
  - rewrite Zlt_Qlt, !inject_Z_mult, inject_Z_plus.
    change (inject_Z 100) with 100%Q. change (inject_Z 1) with 1%Q. lra.
  - rewrite Zle_Qle, !inject_Z_mult.
    change (inject_Z 100) with 100%Q. lra.
Qed.


(** ** Postconditions of the generator loop *)

Section Draws.
Context {S : Type} `{Generator S}.

Lemma returns_weaken {A : Type} (m : Draw S A) (P Q : A -> Prop) :
  returns m P -> (forall x, P x -> Q x) -> returns m Q.
Proof.
  intros Hm HPQ s. destruct (Hm s) as (x & s' & Hrun & HP).
  exists x, s'. auto.
Qed.

Lemma returns_sides_range (w h_img : Z) (a b a' b' : Q) (lo hi lo' hi' : Z) :
  0 <= w -> 0 <= h_img ->
  (0 <= a)%Q -> (a < b)%Q -> (0 <= a')%Q -> (a' < b')%Q ->
  (inject_Z lo <= 100 * a)%Q -> (100 * b <= inject_Z hi)%Q ->
  (inject_Z lo' <= 100 * a')%Q -> (100 * b' <= inject_Z hi')%Q ->
  returns
    (u ← uniform a b;
     v ← uniform a' b';
     mret (Py.int (inject_Z w * u), Py.int (inject_Z h_img * v)))
    (fun '(bw, bh) => side_within w bw lo hi /\ side_within h_img bh lo' hi').
Proof.
  intros Hw Hh Ha Hab Ha' Hab' Hlo Hhi Hlo' Hhi'.
  eapply DetectorProps.returns_bind;
    [by apply DetectorProps.returns_uniform |].
  intros u [Hu0 Hu1]. cbv beta.
  eapply DetectorProps.returns_bind;
    [by apply DetectorProps.returns_uniform |].
  intros v [Hv0 Hv1]. cbv beta.
  apply DetectorProps.returns_ret.
  split;
    [apply (int_side_within w u a b lo hi)
    | apply (int_side_within h_img v a' b' lo' hi')]; assumption.
Qed.

Lemma returns_detection_generated (w h_img : Z) :
  0 <= w -> 0 <= h_img ->
  returns (draw_detection w h_img) (generated w h_img).
Proof.
  intros Hw Hh. unfold draw_detection.
  eapply DetectorProps.returns_bind;
    [apply DetectorProps.returns_choice_SUPPORTED |].
  intros lbl Hlbl. cbv beta in Hlbl.
  eapply DetectorProps.returns_bind;
    [apply (DetectorProps.returns_uniform 0.6 0.98); lra |].
  intros c [Hc0 Hc1]. cbv zeta.
  pose proof (round2_confidence c Hc0 Hc1) as [Hr0 Hr1].
  eapply DetectorProps.returns_bind with
    (P := fun '(bw, bh) =>
       (lbl = "crack" /\ side_within w bw 8 40 /\ side_within h_img bh 1 5)
       \/ (lbl = "corrosion"
           /\ side_within w bw 5 25 /\ side_within h_img bh 5 25)
       \/ (lbl = "leak"
           /\ side_within w bw 5 18 /\ side_within h_img bh 5 12)).
  { unfold SUPPORTED in Hlbl.
    assert (Hcases : lbl = "crack" \/ lbl = "corrosion" \/ lbl = "leak").
    { rewrite !elem_of_cons, elem_of_nil in Hlbl. tauto. }
    clear Hlbl. destruct Hcases as [-> | [-> | ->]];
      cbn [String.eqb Ascii.eqb Bool.eqb]; cbv iota.
    - eapply returns_weaken;
        [apply (returns_sides_range w h_img 0.08 0.4 0.01 0.05 8 40 1 5);
         first [lia | lra | (unfold inject_Z, Qle; cbn; lia)] |].
      intros [bw bh] [Hbw Hbh]. tauto.
    - eapply returns_weaken;
        [apply (returns_sides_range w h_img 0.05 0.25 0.05 0.25 5 25 5 25);
         first [lia | lra | (unfold inject_Z, Qle; cbn; lia)] |].
      intros [bw bh] [Hbw Hbh]. tauto.
    - eapply returns_weaken;
        [apply (returns_sides_range w h_img 0.05 0.18 0.05 0.12 5 18 5 12);
         first [lia | lra | (unfold inject_Z, Qle; cbn; lia)] |].
      intros [bw bh] [Hbw Hbh]. tauto. }
  intros [bw bh] Hsides.
  eapply DetectorProps.returns_bind.
  { apply (DetectorProps.returns_uniform 0).
    change 0%Q with (inject_Z 0). rewrite <- Zlt_Qlt. lia. }
  intros ux _. cbv beta.
  eapply DetectorProps.returns_bind.
  { apply (DetectorProps.returns_uniform 0).
    change 0%Q with (inject_Z 0). rewrite <- Zlt_Qlt. lia. }
  intros uy _. cbv beta.
  apply DetectorProps.returns_ret. unfold generated.
  cbn [bbox confidence label]. split; [eauto | exact Hsides].
Qed.

Lemma returns_loop_post (P : Detection -> Prop) (n : nat) (w h_img : Z)
    (acc : list Detection) :
  returns (draw_detection w h_img) P ->
  Forall P acc ->
  returns (draw_loop n w h_img acc) (Forall P).
Proof.
  intros Hone. revert acc.
  induction n as [| n IH]; intros acc Hacc; cbn [draw_loop].
  - by apply DetectorProps.returns_ret.
  - eapply DetectorProps.returns_bind; [exact Hone |].
    intros d Hd. cbv beta. apply IH.
    apply Forall_app. split; [exact Hacc | by constructor].
Qed.

(** X13. The number of observations follows the weights 20, 50, 20, 10
    through one draw [r] of [random()] and the product [r * 100.0]: with
    [x] the exact product, there is no observation when [x] is at most the
    binary64 number just below 20, one when [20 <= x] and [x] is at most
    the number just below 70, two when [70 <= x] and [x] is at most the
    number just below 90, three when [90 <= x].  Between a threshold and
    the number just below it the rounding of the product decides. *)
Theorem observation_count_thresholds (s : S) :
  exists n,
    choices1 [0; 1; 2; 3] [20; 50; 20; 10] s = inr (n, snd (random s))
    /\ let x := (fst (random s) * 100)%Q in
       ((x <= 20 - (1 # 2 ^ 48))%Q -> n = 0)
       /\ ((20 <= x)%Q -> (x <= 70 - (1 # 2 ^ 46))%Q -> n = 1)
       /\ ((70 <= x)%Q -> (x <= 90 - (1 # 2 ^ 46))%Q -> n = 2)
       /\ ((90 <= x)%Q -> n = 3).
Proof.
  unfold choices1.
  change (accumulate 0 [20; 50; 20; 10]) with [20; 70; 90; 100].
  cbn [length Nat.eqb negb last Z.leb Z.compare].
  destruct (random s) as [r s']. cbn [fst snd]. unfold bisect.
  cbn [Nat.sub drop take count_le Nat.add].
  set (v := Py.b64 (r * Py.b64 (inject_Z 100))).
  assert (Hv : (v == Py.b64 (r * 100))%Q).
  { apply PyProps.b64_comp.
    assert (H100 : (Py.b64 (inject_Z 100) == 100)%Q)
      by (vm_compute; reflexivity).
    by rewrite H100. }
  assert (Hlo : forall c, (Py.b64 c == c)%Q -> (c <= r * 100)%Q -> (c <= v)%Q).
  { intros c Hc Hx. rewrite Hv. by apply PyProps.b64_above. }
  assert (Hhi : forall c, (Py.b64 c == c)%Q -> (r * 100 <= c)%Q -> (v <= c)%Q).
  { intros c Hc Hx. rewrite Hv. by apply PyProps.b64_below. }
  pose proof (Hlo 20%Q ltac:(vm_compute; reflexivity)) as L20.
  pose proof (Hlo 70%Q ltac:(vm_compute; reflexivity)) as L70.
  pose proof (Hlo 90%Q ltac:(vm_compute; reflexivity)) as L90.
  assert (U20 : (r * 100 <= 20 - (1 # 2 ^ 48))%Q -> (v < 20)%Q).
  { intros Hx. apply (Qle_lt_trans _ (20 - (1 # 2 ^ 48))%Q);
      [apply Hhi; [vm_compute; reflexivity | exact Hx]
      | vm_compute; reflexivity]. }
  assert (U70 : (r * 100 <= 70 - (1 # 2 ^ 46))%Q -> (v < 70)%Q).
  { intros Hx. apply (Qle_lt_trans _ (70 - (1 # 2 ^ 46))%Q);
      [apply Hhi; [vm_compute; reflexivity | exact Hx]
      | vm_compute; reflexivity]. }
  assert (U90 : (r * 100 <= 90 - (1 # 2 ^ 46))%Q -> (v < 90)%Q).
  { intros Hx. apply (Qle_lt_trans _ (90 - (1 # 2 ^ 46))%Q);
      [apply Hhi; [vm_compute; reflexivity | exact Hx]
      | vm_compute; reflexivity]. }
  clearbody v. clear Hv Hlo Hhi.
  change (inject_Z 20) with 20%Q. change (inject_Z 70) with 70%Q.
  change (inject_Z 90) with 90%Q.
  repeat match goal with
         | |- context [Qle_bool ?a ?b] =>
             let Hb := fresh "Hb" in
             destruct (Qle_bool a b) eqn:Hb;
             [apply Qle_bool_iff in Hb
             | apply not_true_iff_false in Hb; rewrite Qle_bool_iff in Hb]
         end;
    (eexists; split; [reflexivity |]); cbv zeta;
    repeat split; intros; try reflexivity; exfalso;
    repeat match goal with
           | H : (20 <= r * 100)%Q |- _ => apply L20 in H
           | H : (70 <= r * 100)%Q |- _ => apply L70 in H
           | H : (90 <= r * 100)%Q |- _ => apply L90 in H
           | H : (r * 100 <= 20 - (1 # 2 ^ 48))%Q |- _ => apply U20 in H
           | H : (r * 100 <= 70 - (1 # 2 ^ 46))%Q |- _ => apply U70 in H
           | H : (r * 100 <= 90 - (1 # 2 ^ 46))%Q |- _ => apply U90 in H
           end;
    lra.
Qed.

End Draws.

Section Mock.
Context {S : Type} `{Generator S} `{Hashlib.Sha1}.

Lemma mock_detect_post (P : Z -> Z -> Detection -> Prop) (img : PIL.Image) :
  (forall w h_img, 0 <= w -> 0 <= h_img ->
     returns (draw_detection w h_img) (P w h_img)) ->
  exists ds,
    _mock_detect img = inr ds
    /\ Forall (P (Z.of_N (fst (PIL.size img))) (Z.of_N (snd (PIL.size img))))
         ds.
Proof.
  intros Hone. unfold _mock_detect.
  set (h := Hashlib.hexdigest (take 1024 (PIL.tobytes img))).
  destruct (DetectorProps.int16_total (String.substring 0 8 h)) as [seed ->].
  { pose proof (Hashlib.hexdigest_length (take 1024 (PIL.tobytes img))) as Hlen.
    fold h in Hlen. destruct h; discriminate. }
  { apply DetectorProps.all_hex_prefix, Hashlib.hexdigest_hex. }
  destruct (PIL.size img) as [w h_img]. cbn [fst snd].
  assert (Hbody : returns
    (n ← choices1 [0; 1; 2; 3] [20; 50; 20; 10];
     draw_loop (Z.to_nat n) (Z.of_N w) (Z.of_N h_img) [])
    (Forall (P (Z.of_N w) (Z.of_N h_img)))).
  { eapply DetectorProps.returns_bind; [apply DetectorProps.returns_count |].
    intros n _. cbv beta.
    apply returns_loop_post; [apply Hone; lia | constructor]. }
  destruct (Hbody (seeded seed)) as (ds & s' & Hrun & Hall).
  exists ds. rewrite Hrun. auto.
Qed.

Lemma mock_detect_generated (img : PIL.Image) :
  exists ds,
    _mock_detect img = inr ds
    /\ Forall (generated (Z.of_N (fst (PIL.size img)))
                 (Z.of_N (snd (PIL.size img)))) ds.
Proof.
  apply (mock_detect_post generated). intros w h_img Hw Hh.
  by apply returns_detection_generated.
Qed.

(** X14. Every observation [detect] generates carries one of the three
    supported labels and a confidence between 0.6 and 0.98. *)
Theorem generated_label_and_confidence (path : option string)
    (mdl : option unit) (img : PIL.Image) :
  exists ds,
    detect (mkDetector path true mdl) img = inr ds
    /\ Forall
         (fun d =>
            label d ∈ SUPPORTED
            /\ exists c, confidence d = Some c /\ (0.6 <= c)%Q /\ (c <= 0.98)%Q)
         ds.
Proof.
  destruct (mock_detect_generated img) as (ds & Hrun & Hall).
  exists ds. split; [exact Hrun |].
  eapply Forall_impl; [exact Hall |].
  intros d. unfold generated, SUPPORTED.
  destruct (bbox d) as [[[x y] bw] bh].
  intros [Hconf Hlbl]. split; [| exact Hconf].
  rewrite !elem_of_cons. tauto.
Qed.

(** X15. The sides of a generated box are truncated fractions of the image
    sides, in the ranges of its label: 8 to 40 percent of the width and 1
    to 5 percent of the height for a crack, 5 to 25 percent of each for
    corrosion, 5 to 18 percent of the width and 5 to 12 percent of the
    height for a leak. *)
Theorem generated_box_sizes (path : option string) (mdl : option unit)
    (img : PIL.Image) :
  exists ds,
    detect (mkDetector path true mdl) img = inr ds
    /\ Forall
         (fun d =>
            let '(x, y, bw, bh) := bbox d in
            let w := Z.of_N (fst (PIL.size img)) in
            let h_img := Z.of_N (snd (PIL.size img)) in
            (label d = "crack"
             /\ 8 * w < 100 * (bw + 1) /\ 100 * bw <= 40 * w
             /\ 1 * h_img < 100 * (bh + 1) /\ 100 * bh <= 5 * h_img)
            \/ (label d = "corrosion"
                /\ 5 * w < 100 * (bw + 1) /\ 100 * bw <= 25 * w
                /\ 5 * h_img < 100 * (bh + 1) /\ 100 * bh <= 25 * h_img)
            \/ (label d = "leak"
                /\ 5 * w < 100 * (bw + 1) /\ 100 * bw <= 18 * w
                /\ 5 * h_img < 100 * (bh + 1) /\ 100 * bh <= 12 * h_img))
         ds.
Proof.
  destruct (mock_detect_generated img) as (ds & Hrun & Hall).
  exists ds. split; [exact Hrun |].
  eapply Forall_impl; [exact Hall |].
  intros d. unfold generated, side_within.
  destruct (bbox d) as [[[x y] bw] bh]. cbv zeta. tauto.
Qed.

(** X16. Two images that agree on their first 1024 pixel bytes and on
    their size get the same observations, whatever the bytes beyond. *)
Theorem detect_ignores_bytes_beyond_prefix (self : t)
    (img1 img2 : PIL.Image) :
  take 1024 (PIL.tobytes img1) = take 1024 (PIL.tobytes img2) ->
  PIL.size img1 = PIL.size img2 ->
  detect self img1 = detect self img2.
Proof.
  intros Hbytes Hsize. unfold detect.
  destruct (use_mock self); [| reflexivity].
  by apply DetectorProps.mock_detect_prefix.
Qed.

(** X17. A detector that [__init__] accepts is in mock mode, and [detect]
    on it signals no error. *)
Theorem constructed_detector_never_raises (path : option string)
    (mock : bool) (self : t) (img : PIL.Image) :
  __init__ path mock = inr self ->
  use_mock self = true /\ exists ds, detect self img = inr ds.
Proof.
  unfold __init__, load_model. destruct mock; [| discriminate].
  intros [= <-]. split; [reflexivity |].
  destruct (DetectorProps.mock_detect_returns img) as (ds & Hrun & _).
  by exists ds.
Qed.


(** X19. From the detector to the reasoner: on the observations [detect]
    returns for an image, [analyze] counts them all under ["total"] (at
    most three), and every mapping is a record of the table, never the
    default. *)
Theorem pipeline_summary_and_mappings (path : option string)
    (mdl : option unit) (img : PIL.Image) :
  exists ds,
    detect (mkDetector path true mdl) img = inr ds
    /\ (length ds <= 3)%nat
    /\ let a := Reasoner.analyze ds
                  (Z.of_N (fst (PIL.size img)), Z.of_N (snd (PIL.size img))) in
       Reasoner.summary a !! "total" = Some (Z.of_nat (length ds))
       /\ Forall
            (fun m =>
               exists e,
                 Reasoner.SOP_DB !! Reasoner.m_label m = Some e
                 /\ Reasoner.m_iso m = Reasoner.iso e
                 /\ Reasoner.m_sop m = Reasoner.sop e
                 /\ Reasoner.m_priority m = Reasoner.priority e)
            (Reasoner.sop_mappings a).
Proof.
  destruct (mock_detect_generated img) as (ds & Hrun & Hgen).
  destruct (DetectorProps.mock_detect_returns img) as (ds' & Hrun' & Hlen & _).
  assert (ds' = ds) as -> by congruence.
  exists ds. split; [exact Hrun |]. split; [exact Hlen |].
  assert (Hlbl : Forall (fun d => label d = "crack" \/ label d = "corrosion"
                                  \/ label d = "leak") ds).
  { eapply Forall_impl; [exact Hgen |]. intros d. unfold generated.
    destruct (bbox d) as [[[x y] bw] bh]. tauto. }
  clear Hgen Hrun Hrun' Hlen. cbv zeta.
  cbn [Reasoner.analyze Reasoner.summary Reasoner.sop_mappings].
  split.
  - rewrite lookup_union, ReasonerProps.fold_counts.
    cbn [Reasoner.acc_counts]. rewrite lookup_empty, lookup_singleton_eq.
    assert (Hocc : occurrences "total" ds = 0).
    { unfold occurrences. induction Hlbl as [| d ds Hd _ IH]; [reflexivity |].
      rewrite filter_cons. case_decide; [| exact IH].
      destruct Hd as [Hd | [Hd | Hd]]; congruence. }
    rewrite Hocc. reflexivity.
  - rewrite ReasonerProps.fold_mappings. cbn [Reasoner.acc_mappings app].
    induction Hlbl as [| d ds Hd _ IH]; cbn [map]; constructor; [| exact IH].
    unfold mapping_of. cbn [Reasoner.m_label Reasoner.m_iso Reasoner.m_sop
      Reasoner.m_priority].
    rewrite ReasonerProps.SOP_DB_lookup.
    destruct Hd as [-> | [-> | ->]]; cbn; eauto.
Qed.

End Mock.

(** ** Runs on the executable instance *)

Lemma observation_count_thresholds_witness :
  exists n,
    @choices1 Z Reference.generator Z [0; 1; 2; 3] [20; 50; 20; 10] 7
    = inr (n, snd (Reference.lcg_random 7))
    /\ n = 1.
Proof.
  destruct (@observation_count_thresholds Z Reference.generator 7)
    as (n & Hrun & _ & Hone & _).
  exists n. split; [exact Hrun |].
  apply Hone; vm_compute; discriminate.
Defined.

Lemma detect_ignores_bytes_beyond_prefix_witness :
  @detect Z Reference.generator Reference.sha1 (mkDetector None true None)
    (PIL.mkImage (repeat Byte.x00 1024 ++ [Byte.x01]) (1025%N, 1%N) "L" None)
  = @detect Z Reference.generator Reference.sha1 (mkDetector None true None)
      (PIL.mkImage (repeat Byte.x00 1024 ++ [Byte.xff]) (1025%N, 1%N) "L" None).
Proof.
  apply detect_ignores_bytes_beyond_prefix; vm_compute; reflexivity.
Defined.

Lemma constructed_detector_never_raises_witness :
  use_mock (mkDetector (Some "weights.pt") true None) = true
  /\ exists ds,
       @detect Z Reference.generator Reference.sha1
         (mkDetector (Some "weights.pt") true None)
         (PIL.mkImage [] (0%N, 600%N) "RGB" None)
       = inr ds.
Proof.
  apply (constructed_detector_never_raises (Some "weights.pt") true).
  reflexivity.
Defined.


End DetectorLaws.
